(** * MSPileup: schema validation and registry operations

    A shallow embedding of
    - [WMCore/MicroService/MSPileup/DataStructs/MSPileupObj.py]
      (class [MSPileupObj]: constructor, [validate], [validateRSEs], [schema]);
    - [WMCore/MicroService/MSPileup/MSPileupData.py]
      (function [stripKeys]; class [MSPileupData]: [createPileup],
      [updatePileup], [getPileup], [deletePileup]).

    Python dictionaries keep insertion order and [validate] reports the first
    failing item, so a dictionary is an association list in insertion order.
    Key sets ([set(pdict)]) are [gset string]; the object heap used for the
    aliasing behaviour of [stripKeys] is a [gmap]. *)

From Stdlib Require Import ZArith.
From Stdlib Require Import Floats.SpecFloat.
From stdpp Require Import base decidable option list gmap strings.

Set Default Proof Using "Type".
#[local] Set Warnings "-register-all".

(** ** Python values *)

(** The values a JSON-like document can hold.  [VFloat] is an IEEE-754
    binary64 number in the Standard Library's specification format;
    [VOid] is the identifier the store puts under ["_id"]. *)
Inductive pyval : Type :=
| VNone
| VBool (b : bool)
| VInt (z : Z)
| VFloat (f : spec_float)
| VStr (s : string)
| VList (l : list pyval)
| VOid (n : N).

(** The classes the schema names as expected data types. *)
Inductive pytype : Type := TStr | TInt | TFloat | TBool | TList.

(** [isinstance(val, stype)].  [bool] is a subclass of [int] in Python, so
    [isinstance(True, int)] holds. *)
Definition isinstance (v : pyval) (t : pytype) : bool :=
  match t, v with
  | TStr, VStr _ => true
  | TInt, VInt _ => true
  | TInt, VBool _ => true
  | TFloat, VFloat _ => true
  | TBool, VBool _ => true
  | TList, VList _ => true
  | _, _ => false
  end.

(** 1.0 and 0.0 as binary64 numbers (53-bit mantissa). *)
Definition SF_one : spec_float := S754_finite false 4503599627370496 (-52).
Definition SF_zero : spec_float := S754_zero false.

(** Truth value of an object ([if not pname], [if doc]). *)
Definition truthy (v : pyval) : bool :=
  match v with
  | VNone => false
  | VBool b => b
  | VInt z => negb (z =? 0)%Z
  | VFloat f => negb (SFeqb f SF_zero)
  | VStr s => negb (String.eqb s "")
  | VList l => match l with [] => false | _ => true end
  | VOid _ => true
  end.

Global Instance spec_float_eq_dec : EqDecision spec_float.
Proof. solve_decision. Defined.

(** Structural equality of values, used by the store to match a query. *)
Fixpoint pyval_eqb (a b : pyval) {struct a} : bool :=
  match a, b with
  | VNone, VNone => true
  | VBool x, VBool y => Bool.eqb x y
  | VInt x, VInt y => (x =? y)%Z
  | VFloat x, VFloat y => bool_decide (x = y)
  | VStr x, VStr y => String.eqb x y
  | VList xs, VList ys =>
      (fix go (xs ys : list pyval) {struct xs} : bool :=
         match xs, ys with
         | [], [] => true
         | x :: xs', y :: ys' => pyval_eqb x y && go xs' ys'
         | _, _ => false
         end) xs ys
  | VOid x, VOid y => (x =? y)%N
  | _, _ => false
  end.

(** ** Dictionaries *)

Abbreviation pydict := (list (string * pyval)).

Fixpoint dget (d : pydict) (k : string) : option pyval :=
  match d with
  | [] => None
  | (k', v) :: d' => if String.eqb k k' then Some v else dget d' k
  end.

(** [d.get(k, dflt)] *)
Definition dget_default (d : pydict) (k : string) (dflt : pyval) : pyval :=
  match dget d k with Some v => v | None => dflt end.

(** [d[k] = v]: an existing key keeps its position, a new key goes last. *)
Fixpoint dset (d : pydict) (k : string) (v : pyval) : pydict :=
  match d with
  | [] => [(k, v)]
  | (k', v') :: d' =>
      if String.eqb k k' then (k', v) :: d' else (k', v') :: dset d' k v
  end.

(** [d.pop(k, None)], keeping only the dictionary. *)
Definition dpop (d : pydict) (k : string) : pydict :=
  filter (λ kv, kv.1 ≠ k) d.

Definition dkeys (d : pydict) : list string := d.*1.

(** [set(d)] *)
Definition keyset (d : pydict) : gset string := list_to_set (dkeys d).

Definition dict_truthy (d : pydict) : bool :=
  match d with [] => false | _ => true end.

(** ** MSPileupObj *)

Module MSPileupObj.

(** The messages [validate] builds with f-strings, kept structured: each
    constructor is one format string with the values it interpolates. *)
Inductive vmsg : Type :=
| MsgEmpty
| MsgKeysDiffer (pkeys skeys : gset string)
| MsgNotInSchema (key : string)
| MsgBadType (key : string) (stype : pytype) (val : pyval)
| MsgBadDataset (val : pyval)
| MsgBadPileupType (val : pyval)
| MsgBadGrouping (val : pyval)
| MsgBadFraction (val : pyval)
| MsgBadRSEs (key : string) (val : pyval) (valid : list string).

(** [schema()]: attribute name, (default value, expected data type). *)
Definition schema : list (string * (pyval * pytype)) :=
  [ ("pileupName", (VStr "", TStr));
    ("pileupType", (VStr "", TStr));
    ("insertTime", (VInt 0, TInt));
    ("lastUpdateTime", (VInt 0, TInt));
    ("expectedRSEs", (VList [], TList));
    ("currentRSEs", (VList [], TList));
    ("fullReplicas", (VInt 0, TInt));
    ("campaigns", (VList [], TList));
    ("containerFraction", (VFloat SF_one, TFloat));
    ("replicationGrouping", (VStr "", TStr));
    ("activatedOn", (VInt 0, TInt));
    ("deactivatedOn", (VInt 0, TInt));
    ("active", (VBool false, TBool));
    ("pileupSize", (VInt 0, TInt));
    ("ruleList", (VList [], TList)) ].

Definition schema_keys : list string := schema.*1.

Fixpoint schema_get (sch : list (string * (pyval * pytype))) (k : string)
  : option (pyval * pytype) :=
  match sch with
  | [] => None
  | (k', e) :: sch' => if String.eqb k k' then Some e else schema_get sch' k
  end.

(** [val in ['a', 'b']] for a value against string literals, and
    [rse in self.validRSEs]: only a string equals a string. *)
Definition in_strs (v : pyval) (l : list string) : bool :=
  match v with
  | VStr s => bool_decide (s ∈ l)
  | _ => false
  end.

(** [val > 1 or val < 0] on a float.  Python compares a float with an int
    exactly, and 1 and 0 are binary64 numbers. *)
Definition gt_one (f : spec_float) : bool := SFltb SF_one f.
Definition lt_zero (f : spec_float) : bool := SFltb f SF_zero.

Definition fraction_outside (v : pyval) : bool :=
  match v with
  | VFloat f => gt_one f || lt_zero f
  | _ => false
  end.

(** The object: [self.data] and [self.validRSEs].  The valid sites are the
    configured list of site names. *)
Record t : Type := mk { data : pydict; validRSEs : list string }.

(** [rseList == self.validRSEs] for a list of values against the list of
    site names. *)
Fixpoint list_eq_strs (l : list pyval) (valid : list string) : bool :=
  match l, valid with
  | [], [] => true
  | VStr s :: l', s' :: valid' => String.eqb s s' && list_eq_strs l' valid'
  | _, _ => false
  end.

(** The loop of [validateRSEs]. *)
Fixpoint all_rses_valid (valid : list string) (rseList : list pyval) : bool :=
  match rseList with
  | [] => true
  | rse :: rest =>
      if negb (in_strs rse valid) then false else all_rses_valid valid rest
  end.

Definition validateRSEs (valid : list string) (rseList : list pyval) : bool :=
  if list_eq_strs rseList valid then true
  else all_rses_valid valid rseList.

Section Validate.
(** [WMCore.Lexicon.dataset] is not part of these sources: [dataset s] is
    [true] when the call returns and [false] when it raises
    [AssertionError]. *)
Variable dataset : string → bool.

(** One iteration of the loop of [validate]: [None] when the item passes,
    the message of the first failing check otherwise. *)
Definition check_item (valid : list string) (key : string) (val : pyval)
  : option vmsg :=
  match schema_get schema key with
  | None => Some (MsgNotInSchema key)
  | Some (_, stype) =>
      if negb (isinstance val stype) then Some (MsgBadType key stype val)
      else if String.eqb key "pileupName"
              && negb (match val with VStr s => dataset s | _ => true end)
      then Some (MsgBadDataset val)
      else if String.eqb key "pileupType"
              && negb (in_strs val ["classic"; "premix"])
      then Some (MsgBadPileupType val)
      else if String.eqb key "replicationGrouping"
              && negb (in_strs val ["DATASET"; "ALL"])
      then Some (MsgBadGrouping val)
      else if String.eqb key "containerFraction" && fraction_outside val
      then Some (MsgBadFraction val)
      else if (String.eqb key "expectedRSEs" || String.eqb key "currentRSEs")
              && negb (match val with
                       | VList l => validateRSEs valid l
                       | _ => true
                       end)
      then Some (MsgBadRSEs key val valid)
      else None
  end.

(** [for key, val in pdict.items(): ...; return True, msg] *)
Fixpoint validate_items (valid : list string) (items : pydict)
  : bool * vmsg :=
  match items with
  | [] => (true, MsgEmpty)
  | (key, val) :: rest =>
      match check_item valid key val with
      | Some msg => (false, msg)
      | None => validate_items valid rest
      end
  end.

(** [validate(self, pdict=None)]: an absent or empty [pdict] stands for
    [self.data]. *)
Definition validate (self : t) (pdict : option pydict) : bool * vmsg :=
  let pdict :=
    match pdict with
    | Some d => if dict_truthy d then d else data self
    | None => data self
    end in
  if bool_decide (keyset pdict ≠ list_to_set schema_keys)
  then (false, MsgKeysDiffer (keyset pdict) (list_to_set schema_keys))
  else validate_items (validRSEs self) pdict.

(** The dictionary literal of [__init__].  [t1 .. t4] are the values of the
    four [gmtimeSeconds()] calls, in the order of the literal; each is
    evaluated whether or not the key is present. *)
Definition init_data (pdict : pydict) (t1 t2 t3 t4 : Z) : pydict :=
  [ ("pileupName", dget_default pdict "pileupName" (VStr ""));
    ("pileupType", dget_default pdict "pileupType" (VStr ""));
    ("insertTime", dget_default pdict "insertTime" (VInt t1));
    ("lastUpdateTime", dget_default pdict "lastUpdateTime" (VInt t2));
    ("expectedRSEs", dget_default pdict "expectedRSEs" (VList []));
    ("currentRSEs", dget_default pdict "currentRSEs" (VList []));
    ("fullReplicas", dget_default pdict "fullReplicas" (VInt 0));
    ("campaigns", dget_default pdict "campaigns" (VList []));
    ("containerFraction", dget_default pdict "containerFraction" (VFloat SF_one));
    ("replicationGrouping", dget_default pdict "replicationGrouping" (VStr ""));
    ("activatedOn", dget_default pdict "activatedOn" (VInt t3));
    ("deactivatedOn", dget_default pdict "deactivatedOn" (VInt t4));
    ("active", dget_default pdict "active" (VBool false));
    ("pileupSize", dget_default pdict "pileupSize" (VInt 0));
    ("ruleList", dget_default pdict "ruleList" (VList [])) ].

(** [MSPileupObj(pdict, validRSEs=...)]: the object, or the message of the
    raised [Exception]. *)
Definition init (pdict : pydict) (valid : list string) (t1 t2 t3 t4 : Z)
  : t + vmsg :=
  let self := mk (init_data pdict t1 t2 t3 t4) valid in
  let '(ok, msg) := validate self (Some (data self)) in
  if negb ok then inr msg else inl self.

Definition getPileupData (self : t) : pydict := data self.

End Validate.

End MSPileupObj.

(** ** The world the registry runs in *)

(** Exceptions that cross function boundaries. *)
Inductive exn : Type :=
| PyException (msg : MSPileupObj.vmsg)  (* [raise Exception(msg)] of [__init__] *)
| DuplicateKeyError                       (* [pymongo.errors.DuplicateKeyError] *)
| StoreFailure (reason : string).         (* any other exception of a store call *)

(** The collection, the clock and the failures of the environment.
    [gmtime n] is what the [n]-th call of [gmtimeSeconds()] returns
    ([Utils.Timers] is not part of these sources); [fault n] is the
    exception the [n]-th store call fails with, if any (connection loss,
    timeout, write or delete failure). *)
Record World : Type := mkWorld {
  coll : list pydict;
  next_oid : N;
  gmtime : nat → Z;
  ticks : nat;
  fault : nat → option exn;
  calls : nat }.

Inductive outcome (A : Type) : Type :=
| Ret (a : A)
| Raise (e : exn).
Arguments Ret {A} a.
Arguments Raise {A} e.

(** State and exceptions. *)
Definition M (A : Type) : Type := World → outcome A * World.

Definition ret {A} (a : A) : M A := λ w, (Ret a, w).

Definition bind {A B} (m : M A) (k : A → M B) : M B :=
  λ w, match m w with
       | (Ret a, w') => k a w'
       | (Raise e, w') => (Raise e, w')
       end.

(** [try: m except <those e with h e = Some k>: k] *)
Definition try_except {A} (m : M A) (h : exn → option (M A)) : M A :=
  λ w, match m w with
       | (Ret a, w') => (Ret a, w')
       | (Raise e, w') =>
           match h e with
           | Some k => k w'
           | None => (Raise e, w')
           end
       end.

Notation "x <- m ;; k" := (bind m (λ x, k))
  (at level 100, m at next level, right associativity).
Notation "m ;;; k" := (bind m (λ _, k))
  (at level 100, right associativity).

Definition gmtimeSeconds : M Z :=
  λ w, (Ret (gmtime w (ticks w)),
        mkWorld (coll w) (next_oid w) (gmtime w) (S (ticks w)) (fault w) (calls w)).

Definition set_coll (c : list pydict) (w : World) : World :=
  mkWorld c (next_oid w) (gmtime w) (ticks w) (fault w) (calls w).

(** The world after one more store call, and after [n] more clock
    readings. *)
Definition after_call (w : World) : World :=
  mkWorld (coll w) (next_oid w) (gmtime w) (ticks w) (fault w) (S (calls w)).

Definition after_ticks (n : nat) (w : World) : World :=
  mkWorld (coll w) (next_oid w) (gmtime w) (n + ticks w) (fault w) (calls w).

(** ** The document store *)

Module Store.

(** Modelled from the spec: the store collaborator (the pymongo collection
    behind [WMCore.Database.MongoDB]) is not under the sources.  The spec
    gives its interface: [insertOne] succeeds or fails with a duplicate key
    or another failure; [findMany] returns the matching documents;
    [updateOne] has set semantics; [deleteOne] removes a match; the
    collection has a unique index on [pileupName].  A query is a mapping of
    fields to the values they must have. *)
Definition matches (spec doc : pydict) : bool :=
  forallb (λ kv, match dget doc kv.1 with
                 | Some v => pyval_eqb v kv.2
                 | None => false
                 end) spec.

Definition same_key (a b : option pyval) : bool :=
  match a, b with
  | Some x, Some y => pyval_eqb x y
  | None, None => true
  | _, _ => false
  end.

(** Every store call first meets the environment: the call counter advances
    and a fault, if one is due, is raised. *)
Definition call : M unit :=
  λ w, let w' := mkWorld (coll w) (next_oid w) (gmtime w) (ticks w)
                         (fault w) (S (calls w)) in
       match fault w (calls w) with
       | Some e => (Raise e, w')
       | None => (Ret (), w')
       end.

Definition index_violated (doc : pydict) (c : list pydict) : bool :=
  existsb (λ d, same_key (dget d "pileupName") (dget doc "pileupName")) c.

Definition insert_one (doc : pydict) : M unit :=
  call ;;;
  λ w, if index_violated doc (coll w) then (Raise DuplicateKeyError, w)
       else (Ret (),
             mkWorld (coll w ++ [("_id", VOid (next_oid w)) :: doc])
                     (N.succ (next_oid w)) (gmtime w) (ticks w)
                     (fault w) (calls w)).

(** A projection lists the fields to keep; the identifier is kept too. *)
Definition project (projection : option (list string)) (doc : pydict) : pydict :=
  match projection with
  | None => doc
  | Some fields => filter (λ kv, kv.1 ∈ "_id" :: fields) doc
  end.

Definition find (spec : pydict) (projection : option (list string))
  : M (list pydict) :=
  call ;;;
  λ w, (Ret (project projection <$> filter (λ d, matches spec d) (coll w)), w).

(** [{"$set": doc}]: field replacement. *)
Definition apply_set (setdoc doc : pydict) : pydict :=
  fold_left (λ acc kv, dset acc kv.1 kv.2) setdoc doc.

Fixpoint update_first (spec setdoc : pydict) (c : list pydict) : list pydict :=
  match c with
  | [] => []
  | d :: c' =>
      if matches spec d then apply_set setdoc d :: c'
      else d :: update_first spec setdoc c'
  end.

Definition update_one (spec setdoc : pydict) : M unit :=
  call ;;; λ w, (Ret (), set_coll (update_first spec setdoc (coll w)) w).

Fixpoint delete_first (spec : pydict) (c : list pydict) : list pydict :=
  match c with
  | [] => []
  | d :: c' => if matches spec d then c' else d :: delete_first spec c'
  end.

Definition delete_one (spec : pydict) : M unit :=
  call ;;; λ w, (Ret (), set_coll (delete_first spec (coll w)) w).

End Store.

(** ** stripKeys *)

(** [stripKeys] pops keys from the dictionaries it is given and appends the
    very same dictionary objects to its result, so dictionaries live in a
    heap and a list holds references to them. *)
Module Heap.

Definition loc : Type := positive.

(** The [docs] argument: a list of dictionaries or one dictionary. *)
Inductive docs_arg : Type :=
| ADocs (ds : list loc)
| ADoc (d : loc).

(** [if doc:] for a reference; a reference to nothing counts as false. *)
Definition obj_truthy (h : gmap loc pydict) (doc : loc) : bool :=
  match h !! doc with
  | Some d => dict_truthy d
  | None => false
  end.

(** [doc.pop(key, None)] *)
Definition pop (doc : loc) (key : string) (h : gmap loc pydict)
  : gmap loc pydict :=
  alter (λ d, dpop d key) doc h.

(** [for key in skeys: doc.pop(key, None); results.append(doc)] *)
Fixpoint strip_append (doc : loc) (skeys : list string)
    (h : gmap loc pydict) (results : list loc) : gmap loc pydict * list loc :=
  match skeys with
  | [] => (h, results)
  | key :: rest => strip_append doc rest (pop doc key h) (results ++ [doc])
  end.

(** [for doc in docs: if doc: ...] *)
Fixpoint strip_list (docs : list loc) (skeys : list string)
    (h : gmap loc pydict) (results : list loc) : gmap loc pydict * list loc :=
  match docs with
  | [] => (h, results)
  | doc :: rest =>
      if obj_truthy h doc then
        let '(h', results') := strip_append doc skeys h results in
        strip_list rest skeys h' results'
      else strip_list rest skeys h results
  end.

(** [for key in skeys: docs.pop(key, None)] *)
Fixpoint strip_dict (doc : loc) (skeys : list string) (h : gmap loc pydict)
  : gmap loc pydict :=
  match skeys with
  | [] => h
  | key :: rest => strip_dict doc rest (pop doc key h)
  end.

Definition stripKeys (docs : docs_arg) (skeys : option (list string))
    (h : gmap loc pydict) : docs_arg * gmap loc pydict :=
  match skeys with
  | None => (docs, h)
  | Some skeys =>
      match docs with
      | ADocs ds =>
          let '(h', results) := strip_list ds skeys h [] in
          (ADocs results, h')
      | ADoc d =>
          if obj_truthy h d then (ADoc d, strip_dict d skeys h)
          else (ADoc d, h)
      end
  end.

End Heap.

(** The dictionary branch of [stripKeys] on a dictionary nobody else holds
    (a document just fetched from the store), as a function on its value. *)
Definition stripKeys_doc (doc : pydict) (skeys : option (list string)) : pydict :=
  match skeys with
  | None => doc
  | Some skeys =>
      if dict_truthy doc then fold_left dpop skeys doc else doc
  end.

(** [stripKeys(doc, ['_id'])], as [getPileup] calls it. *)
Definition strip_id (doc : pydict) : pydict := stripKeys_doc doc (Some ["_id"]).

(** ** Errors *)

Module MSPileupError.

(** Modelled from the spec: the module [MSPileupError] is not under the
    sources.  The spec gives four error kinds, each carrying the offending
    input and a message, the store error optionally wrapping the store's
    exception, and a uniform conversion to a result (kind, input, message). *)
Inductive kind : Type :=
| DuplicateDocument          (* [MSPileupDuplicateDocumentError] *)
| UniqueConstraintViolated   (* [MSPileupUniqueConstrainError] *)
| KeyNotFound                (* [MSPileupNoKeyFoundError] *)
| StoreError.                (* [MSPileupDatabaseError] *)

(** The messages of [MSPileupData], one constructor per format string. *)
Inductive emsg : Type :=
| EFailedCreate (exp : exn)
| EAlreadyExists (doc : pydict)
| ENoDocument (pname : pyval)
| ENoDocumentQuery (spec : pydict)
| EUniqueViolated (pname : pyval)
| EFailedInsert (doc : pydict) (exp : exn)
| EUnableDelete (spec : pydict) (exp : exn).

(** What [err.error()] returns. *)
Record result : Type := error {
  err_kind : kind;
  err_input : pydict;
  err_message : emsg;
  err_wrapped : option exn }.

End MSPileupError.

(** ** MSPileupData *)

Module MSPileupData.
Import MSPileupError.

Section Registry.
Variable dataset : string → bool.
(** [self.validRSEs] *)
Variable validRSEs : list string.

(** Lines 85-113.  The logger calls have no effect on the result. *)
Definition createPileup (pdict : pydict) : M (list result) :=
  t1 <- gmtimeSeconds ;;
  t2 <- gmtimeSeconds ;;
  t3 <- gmtimeSeconds ;;
  t4 <- gmtimeSeconds ;;
  match MSPileupObj.init dataset pdict validRSEs t1 t2 t3 t4 with
  | inr msg =>
      ret [error DuplicateDocument pdict (EFailedCreate (PyException msg)) None]
  | inl obj =>
      let doc := MSPileupObj.getPileupData obj in
      try_except (Store.insert_one doc ;;; ret [])
        (λ e, match e with
              | DuplicateKeyError =>
                  Some (ret [error DuplicateDocument doc (EAlreadyExists doc) None])
              | _ => None
              end)
  end.

(** Lines 157-171. *)
Definition getPileup (spec : pydict) (projection : option (list string))
  : M (list pydict) :=
  found <- Store.find spec projection ;;
  ret ((λ doc, stripKeys_doc doc (Some ["_id"])) <$> found).

(** Lines 144-155: the write of [updatePileup].  [doc] is the caller's
    dictionary, which the assignment changes in place. *)
Definition update_write (spec doc : pydict) : M (list result) :=
  now <- gmtimeSeconds ;;
  let doc := dset doc "lastUpdateTime" (VInt now) in
  try_except (Store.update_one spec doc ;;; ret [])
    (λ exp, Some (ret [error StoreError doc (EFailedInsert doc exp) (Some exp)])).

(** Lines 115-155. *)
Definition updatePileup (doc : pydict) : M (list result) :=
  let pname := dget_default doc "pileupName" (VStr "") in
  if negb (truthy pname) then
    ret [error KeyNotFound doc (ENoDocument pname) None]
  else
    let spec := [("pileupName", pname)] in
    results <- getPileup spec None ;;
    if match results with [] => true | _ => false end then
      ret [error KeyNotFound spec (ENoDocumentQuery spec) None]
    else if negb (length results =? 1) then
      ret [error UniqueConstraintViolated spec (EUniqueViolated pname) None]
    else update_write spec doc.

(** Lines 173-189. *)
Definition deletePileup (spec : pydict) : M (list result) :=
  try_except (Store.delete_one spec ;;; ret [])
    (λ exp, Some (ret [error StoreError spec (EUnableDelete spec exp) None])).

End Registry.

End MSPileupData.

(** ** Sample inputs *)

Module Samples.

(** A stand-in for [Lexicon.dataset] that accepts the names starting with
    a slash. *)
Definition dataset_ok (s : string) : bool := String.prefix "/" s.

Definition sites : list string := ["Disk1"; "Disk2"].

Definition SF_half : spec_float := S754_finite false 4503599627370496 (-53).
Definition SF_two : spec_float := S754_finite false 4503599627370496 (-51).

(** The scenario of the spec. *)
Definition pdict0 : pydict :=
  [ ("pileupName", VStr "/A/B/C");
    ("pileupType", VStr "classic");
    ("replicationGrouping", VStr "DATASET");
    ("containerFraction", VFloat SF_half);
    ("expectedRSEs", VList [VStr "Disk1"]);
    ("currentRSEs", VList []) ].

Definition doc0 : pydict := MSPileupObj.init_data pdict0 100 100 100 100.

Definition obj0 : MSPileupObj.t := MSPileupObj.mk doc0 sites.

Definition quiet (_ : nat) : option exn := None.

Definition clock0 (n : nat) : Z := 1000 + Z.of_nat n.

(** An empty collection, and one holding [doc0]. *)
Definition world0 : World := mkWorld [] 0 clock0 0 quiet 0.
Definition world1 : World :=
  mkWorld [("_id", VOid 0) :: doc0] 1 clock0 0 quiet 0.

(** The same collection behind a store that has lost its connection. *)
Definition down (_ : nat) : option exn := Some (StoreFailure "connection lost").
Definition world_down : World :=
  mkWorld [("_id", VOid 0) :: doc0] 1 clock0 0 down 0.

(** A store that answers the lookup and fails the write after it. *)
Definition write_fails (n : nat) : option exn :=
  match n with
  | 1 => Some (StoreFailure "write failed")
  | _ => None
  end.
Definition world_write_fails : World :=
  mkWorld [("_id", VOid 0) :: doc0] 1 clock0 0 write_fails 0.

(** A collection whose index has been corrupted: the record twice. *)
Definition world_twice : World :=
  mkWorld [("_id", VOid 0) :: doc0; ("_id", VOid 1) :: doc0] 2
          clock0 0 quiet 0.

Definition name0 : pydict := [("pileupName", VStr "/A/B/C")].

(** An update that carries its own [insertTime]. *)
Definition update_insert : pydict :=
  [("pileupName", VStr "/A/B/C"); ("insertTime", VInt 5)].

(** A candidate whose [lastUpdateTime] lies ahead of the clock. *)
Definition pdict_ahead : pydict := dset pdict0 "lastUpdateTime" (VInt 5000).

End Samples.

(** ** The defaults the specification lists *)

(** The specification names these defaults for omitted fields: the empty
    string, the empty sequence, zero, [False], or epoch seconds. *)
Definition listed_default (v : pyval) : Prop :=
  v = VStr "" ∨ v = VList [] ∨ v = VInt 0 ∨ v = VBool false ∨ ∃ t, v = VInt t.


(** ** The rules of the schema, field by field *)

Module Rules.

Definition is_int (v : pyval) : Prop := (∃ z, v = VInt z) ∨ (∃ b, v = VBool b).

Definition is_list (v : pyval) : Prop := ∃ l, v = VList l.

(** Every element is the name of a valid site. *)
Definition sites_ok (valid : list string) (l : list pyval) : Prop :=
  ∀ x, x ∈ l → ∃ s, x = VStr s ∧ s ∈ valid.

(** What [validate] asks of a dictionary, read off its checks: the keys of
    the schema and nothing else; for each key the type of the schema
    ([bool] counting as [int]); and the rule of the field, if it has one. *)
Record valid_document (dataset : string → bool) (valid : list string)
    (d : pydict) : Prop := mk_valid {
  vd_keys : keyset d = list_to_set MSPileupObj.schema_keys;
  vd_pileupName :
    ∃ s, dget d "pileupName" = Some (VStr s) ∧ dataset s = true;
  vd_pileupType :
    dget d "pileupType" = Some (VStr "classic")
    ∨ dget d "pileupType" = Some (VStr "premix");
  vd_insertTime : ∃ v, dget d "insertTime" = Some v ∧ is_int v;
  vd_lastUpdateTime : ∃ v, dget d "lastUpdateTime" = Some v ∧ is_int v;
  vd_expectedRSEs :
    ∃ l, dget d "expectedRSEs" = Some (VList l) ∧ sites_ok valid l;
  vd_currentRSEs :
    ∃ l, dget d "currentRSEs" = Some (VList l) ∧ sites_ok valid l;
  vd_fullReplicas : ∃ v, dget d "fullReplicas" = Some v ∧ is_int v;
  vd_campaigns : ∃ v, dget d "campaigns" = Some v ∧ is_list v;
  vd_containerFraction :
    ∃ f, dget d "containerFraction" = Some (VFloat f)
         ∧ SFltb SF_one f = false ∧ SFltb f SF_zero = false;
  vd_replicationGrouping :
    dget d "replicationGrouping" = Some (VStr "DATASET")
    ∨ dget d "replicationGrouping" = Some (VStr "ALL");
  vd_activatedOn : ∃ v, dget d "activatedOn" = Some v ∧ is_int v;
  vd_deactivatedOn : ∃ v, dget d "deactivatedOn" = Some v ∧ is_int v;
  vd_active : ∃ b, dget d "active" = Some (VBool b);
  vd_pileupSize : ∃ v, dget d "pileupSize" = Some v ∧ is_int v;
  vd_ruleList : ∃ v, dget d "ruleList" = Some v ∧ is_list v }.

End Rules.

(** The [pileupName] of each stored document, in the order of the
    collection. *)
Definition stored_names (c : list pydict) : list (option pyval) :=
  (λ d, dget d "pileupName") <$> c.
(** ** Dictionaries: basic facts *)

Lemma dget_dset_eq d k v : dget (dset d k v) k = Some v.
Proof.
  induction d as [|[k' v'] d IH]; simpl.
  - by rewrite String.eqb_refl.
  - destruct (String.eqb k k') eqn:E; simpl; rewrite E; [done | exact IH].
Qed.

Lemma dget_dset_ne d k k' v : k ≠ k' → dget (dset d k v) k' = dget d k'.
Proof.
  intros Hne. induction d as [|[k0 v0] d IH]; simpl.
  - destruct (String.eqb k' k) eqn:E; [|done].
    apply String.eqb_eq in E. congruence.
  - destruct (String.eqb k k0) eqn:E; simpl.
    + apply String.eqb_eq in E. subst k0.
      destruct (String.eqb k' k) eqn:E'; [|done].
      apply String.eqb_eq in E'. congruence.
    + by rewrite IH.
Qed.

Lemma dget_None_keys d k : dget d k = None ↔ k ∉ dkeys d.
Proof.
  unfold dkeys. induction d as [|[k' v'] d IH]; simpl.
  - split; [intros _; apply not_elem_of_nil | done].
  - rewrite not_elem_of_cons. destruct (String.eqb k k') eqn:E.
    + apply String.eqb_eq in E. split; [done | intros [? _]; done].
    + apply String.eqb_neq in E. rewrite IH. tauto.
Qed.

Lemma dkeys_dset_in d k v : k ∈ dkeys d → dkeys (dset d k v) = dkeys d.
Proof.
  unfold dkeys. induction d as [|[k' v'] d IH]; simpl.
  - intros H. by apply elem_of_nil in H.
  - destruct (String.eqb k k') eqn:E; simpl; [done|].
    apply String.eqb_neq in E. rewrite elem_of_cons.
    intros [?|H]; [done|]. f_equal. by apply IH.
Qed.

Lemma elem_of_dset d k v : (k, v) ∈ dset d k v.
Proof.
  induction d as [|[k' v'] d IH]; simpl.
  - left.
  - destruct (String.eqb k k') eqn:E.
    + apply String.eqb_eq in E. subst. left.
    + by right.
Qed.

(** In a dictionary (keys distinct) an assignment leaves the other items. *)
Lemma elem_of_dset_inv d k v k' v' :
  NoDup (dkeys d) → (k', v') ∈ dset d k v →
  (k' = k ∧ v' = v) ∨ (k' ≠ k ∧ (k', v') ∈ d).
Proof.
  unfold dkeys. induction d as [|[k0 v0] d IH]; simpl.
  - intros _ H. apply list_elem_of_singleton in H. left. by inversion H.
  - intros Hnd H. apply NoDup_cons in Hnd as [Hk0 Hnd].
    destruct (String.eqb k k0) eqn:E.
    + apply String.eqb_eq in E. subst k0.
      apply elem_of_cons in H as [H|H]; [left; by inversion H|].
      right. split; [|by right].
      intros ->. apply Hk0. apply list_elem_of_fmap. by exists (k, v').
    + apply String.eqb_neq in E.
      apply elem_of_cons in H as [H|H].
      * inversion H; subst. right. split; [done | left].
      * destruct (IH Hnd H) as [?|[? ?]]; [by left|].
        right. split; [done | by right].
Qed.

Lemma dset_nonempty d k v : dset d k v ≠ [].
Proof.
  destruct d as [|[k' v'] d]; simpl; [done|].
  by destruct (String.eqb k k').
Qed.

Lemma elem_of_keyset d k : k ∈ keyset d ↔ k ∈ dkeys d.
Proof. unfold keyset. apply elem_of_list_to_set. Qed.

Lemma dict_truthy_cons d : d ≠ [] → dict_truthy d = true.
Proof. by destruct d. Qed.

(** ** The validator *)

Section ValidatorFacts.
Import MSPileupObj.
Variable dataset : string → bool.

Lemma validate_items_ok valid d :
  (∀ k v, (k, v) ∈ d → check_item dataset valid k v = None) →
  validate_items dataset valid d = (true, MsgEmpty).
Proof.
  induction d as [|[k v] d IH]; simpl; [done|].
  intros H. rewrite (H k v) by left. apply IH.
  intros k' v' Hin. apply H. by right.
Qed.

Lemma validate_items_fail valid d k v :
  (k, v) ∈ d → check_item dataset valid k v ≠ None →
  (validate_items dataset valid d).1 = false.
Proof.
  induction d as [|[k' v'] d IH]; simpl.
  - intros H. by apply elem_of_nil in H.
  - intros Hin Hbad. destruct (check_item dataset valid k' v') eqn:E; [done|].
    apply elem_of_cons in Hin as [Heq|Hin]; [|by apply IH].
    inversion Heq; subst. done.
Qed.

Lemma schema_get_Some sch k e : schema_get sch k = Some e → k ∈ sch.*1.
Proof.
  induction sch as [|[k0 e0] l IH]; simpl; [done|].
  destruct (String.eqb k k0) eqn:Ek.
  - apply String.eqb_eq in Ek. subst. intros _. left.
  - intros H. right. by apply IH.
Qed.

(** A mapping that is given (not empty) is the one validated. *)
Lemma validate_given self d :
  d ≠ [] →
  validate dataset self (Some d) =
    if bool_decide (keyset d ≠ list_to_set schema_keys)
    then (false, MsgKeysDiffer (keyset d) (list_to_set schema_keys))
    else validate_items dataset (validRSEs self) d.
Proof. intros Hd. unfold validate. by rewrite dict_truthy_cons. Qed.

Lemma validate_keys_differ self d :
  d ≠ [] → keyset d ≠ list_to_set schema_keys →
  validate dataset self (Some d)
  = (false, MsgKeysDiffer (keyset d) (list_to_set schema_keys)).
Proof.
  intros Hd Hk. rewrite validate_given by done. by rewrite bool_decide_eq_true_2.
Qed.

Lemma validate_bad_item self d k v :
  (k, v) ∈ d → check_item dataset (validRSEs self) k v ≠ None →
  (validate dataset self (Some d)).1 = false.
Proof.
  intros Hin Hbad.
  assert (d ≠ []) as Hd by (intros ->; by apply elem_of_nil in Hin).
  rewrite validate_given by done. case_bool_decide; [done|].
  by eapply validate_items_fail.
Qed.

Lemma validate_all_ok self d :
  d ≠ [] → keyset d = list_to_set schema_keys →
  (∀ k v, (k, v) ∈ d → check_item dataset (validRSEs self) k v = None) →
  validate dataset self (Some d) = (true, MsgEmpty).
Proof.
  intros Hd Hk Hall. rewrite validate_given by done.
  rewrite bool_decide_eq_false_2 by (intros H; by apply H).
  by apply validate_items_ok.
Qed.

(** Replacing the value of one field of a dictionary whose other fields
    are valid. *)
Lemma validate_dset self d key v :
  NoDup (dkeys d) → keyset d = list_to_set schema_keys →
  (∀ k' v', (k', v') ∈ d → k' ≠ key →
            check_item dataset (validRSEs self) k' v' = None) →
  check_item dataset (validRSEs self) key v = None →
  validate dataset self (Some (dset d key v)) = (true, MsgEmpty).
Proof.
  intros Hnd Hks Hothers Hv.
  assert (key ∈ dkeys d) as Hin.
  { apply elem_of_keyset. rewrite Hks. apply elem_of_list_to_set.
    unfold check_item in Hv.
    destruct (schema_get schema key) as [e|] eqn:E; [|done].
    by eapply schema_get_Some. }
  apply validate_all_ok.
  - apply dset_nonempty.
  - unfold keyset. by rewrite dkeys_dset_in.
  - intros k' v' H'. apply elem_of_dset_inv in H' as [[-> ->]|[Hne H']]; auto.
Qed.

(** C5, amended.  For every mapping that is not empty and whose key set
    differs from the key set of the schema (a key missing or a key too
    many), [validate] returns [False] with the message on the two key sets.
    The empty mapping is excluded: [validate] takes it for "no mapping
    given" and validates the data of the object instead. *)
Theorem validate_rejects_other_keys (self : MSPileupObj.t) (d : pydict) :
  d ≠ [] → keyset d ≠ list_to_set schema_keys →
  validate dataset self (Some d)
  = (false, MsgKeysDiffer (keyset d) (list_to_set schema_keys)).
Proof.
  intros Hd Hk. unfold validate.
  destruct d as [|kv d]; [done|].
  cbn [dict_truthy].
  by rewrite bool_decide_eq_true_2.
Qed.

End ValidatorFacts.

Lemma validate_rejects_other_keys_witness :
  MSPileupObj.validate Samples.dataset_ok Samples.obj0
    (Some [("pileupName", VStr "/A/B/C")])
  = (false, MSPileupObj.MsgKeysDiffer (keyset [("pileupName", VStr "/A/B/C")])
              (list_to_set MSPileupObj.schema_keys)).
Proof.
  apply (validate_rejects_other_keys Samples.dataset_ok Samples.obj0
           [("pileupName", VStr "/A/B/C")]).
  - discriminate.
  - intros H.
    assert ("active" ∈ keyset [("pileupName", VStr "/A/B/C")]) as Hin.
    { rewrite H. apply (bool_decide_unpack _). by vm_compute. }
    revert Hin. apply (bool_decide_unpack _). by vm_compute.
Defined.

(** The empty mapping misses all fifteen keys, and [validate] called with it
    on a constructed object answers [True]. *)
Lemma validate_empty_mapping_accepted :
  MSPileupObj.init Samples.dataset_ok Samples.pdict0 Samples.sites 100 100 100 100
  = inl Samples.obj0
  ∧ keyset [] ≠ list_to_set MSPileupObj.schema_keys
  ∧ MSPileupObj.validate Samples.dataset_ok Samples.obj0 (Some [])
    = (true, MSPileupObj.MsgEmpty).
Proof.
  split; [by vm_compute|]. split; [|by vm_compute].
  intros H.
  assert ("active" ∈ keyset []) as Hin.
  { rewrite H. apply (bool_decide_unpack _). by vm_compute. }
  revert Hin. apply (bool_decide_unpack _). by vm_compute.
Qed.

(** ** The constructor *)

Section ConstructorFacts.
Import MSPileupObj.
Variable dataset : string → bool.

Lemma dget_default_dset_ne d k k' v dflt :
  k ≠ k' → dget_default (dset d k v) k' dflt = dget_default d k' dflt.
Proof. intros Hne. unfold dget_default. by rewrite dget_dset_ne. Qed.

(** A key outside the schema is never read by the constructor. *)
Lemma init_data_extra_key pdict k v t1 t2 t3 t4 :
  k ∉ schema_keys →
  init_data (dset pdict k v) t1 t2 t3 t4 = init_data pdict t1 t2 t3 t4.
Proof.
  intros Hk. unfold init_data.
  rewrite !dget_default_dset_ne; [done|..];
    intros ->; apply Hk; apply (bool_decide_unpack _); by vm_compute.
Qed.

Lemma init_spec pdict valid t1 t2 t3 t4 :
  let d := init_data pdict t1 t2 t3 t4 in
  init dataset pdict valid t1 t2 t3 t4 =
    if (validate dataset (mk d valid) (Some d)).1 then inl (mk d valid)
    else inr (validate dataset (mk d valid) (Some d)).2.
Proof.
  intros d. unfold init. fold d. simpl.
  by destruct (validate dataset (mk d valid) (Some d)) as [[|] msg].
Qed.

(** C9.  The constructor builds its dictionary by projecting the candidate
    onto exactly the fifteen schema fields: every schema key the candidate
    holds keeps the candidate's value, and a key outside the schema does not
    reach the document; it succeeds if and only if that defaulted dictionary
    passes validation, and the object then holds it; a key outside the
    schema in the candidate changes nothing of the outcome, so it never makes
    the construction fail; and [validate] called directly on a mapping
    holding such a key fails. *)
Theorem init_drops_extra_keys (pdict : pydict) (valid : list string)
    (t1 t2 t3 t4 : Z) (k : string) (v : pyval) :
  k ∉ schema_keys →
  let d := init_data pdict t1 t2 t3 t4 in
  dkeys d = schema_keys
  ∧ (∀ k' v', k' ∈ schema_keys → dget pdict k' = Some v' →
              dget d k' = Some v')
  ∧ dget (init_data (dset pdict k v) t1 t2 t3 t4) k = None
  ∧ (∀ obj, init dataset pdict valid t1 t2 t3 t4 = inl obj ↔
            obj = mk d valid
            ∧ (validate dataset (mk d valid) (Some d)).1 = true)
  ∧ init dataset (dset pdict k v) valid t1 t2 t3 t4
    = init dataset pdict valid t1 t2 t3 t4
  ∧ (∀ self, (validate dataset self (Some (dset pdict k v))).1 = false).
Proof.
  intros Hk d. split; [done|]. split; [|split; [|split; [|split]]].
  - intros k' v' Hk' Hget. subst d.
    unfold schema_keys, schema in Hk'. simpl in Hk'.
    repeat (apply elem_of_cons in Hk' as [->|Hk'];
            [unfold init_data, dget_default; simpl; by rewrite Hget|]).
    by apply elem_of_nil in Hk'.
  - apply dget_None_keys. by change (k ∉ schema_keys).
  - intros obj. rewrite init_spec. fold d.
    destruct (validate dataset (mk d valid) (Some d)).1; split.
    + intros [= <-]. done.
    + intros [-> _]. done.
    + done.
    + intros [_ ?]. done.
  - unfold init. by rewrite init_data_extra_key.
  - intros self.
    rewrite validate_keys_differ; [done | apply dset_nonempty |].
    intros Heq. apply Hk.
    apply (proj1 (elem_of_list_to_set (C:=gset string) k schema_keys)).
    rewrite <- Heq.
    apply elem_of_keyset. apply list_elem_of_fmap.
    exists (k, v). split; [done | apply elem_of_dset].
Qed.

(** C3, amended.  Every schema field of the constructed dictionary is the
    candidate's value when the candidate has the key and the default
    otherwise; the defaults are the empty string for [pileupName],
    [pileupType] and [replicationGrouping], the empty list for
    [expectedRSEs], [currentRSEs], [campaigns] and [ruleList], zero for
    [fullReplicas] and [pileupSize], [False] for [active], 1.0 for
    [containerFraction], and the clock readings for [insertTime],
    [lastUpdateTime], [activatedOn] and [deactivatedOn]; validation then runs
    on this fifteen-field dictionary. *)
Theorem init_fills_defaults (pdict : pydict) (valid : list string)
    (t1 t2 t3 t4 : Z) (k : string) :
  k ∈ schema_keys →
  let d := init_data pdict t1 t2 t3 t4 in
  init_data [] t1 t2 t3 t4 =
    [ ("pileupName", VStr ""); ("pileupType", VStr "");
      ("insertTime", VInt t1); ("lastUpdateTime", VInt t2);
      ("expectedRSEs", VList []); ("currentRSEs", VList []);
      ("fullReplicas", VInt 0); ("campaigns", VList []);
      ("containerFraction", VFloat SF_one); ("replicationGrouping", VStr "");
      ("activatedOn", VInt t3); ("deactivatedOn", VInt t4);
      ("active", VBool false); ("pileupSize", VInt 0);
      ("ruleList", VList []) ]
  ∧ dget d k = match dget pdict k with
               | Some v => Some v
               | None => dget (init_data [] t1 t2 t3 t4) k
               end
  ∧ dkeys d = schema_keys
  ∧ init dataset pdict valid t1 t2 t3 t4 =
      if (validate dataset (mk d valid) (Some d)).1 then inl (mk d valid)
      else inr (validate dataset (mk d valid) (Some d)).2.
Proof.
  intros Hk d. split; [done|]. split; [|split; [done | apply init_spec]].
  unfold schema_keys, schema in Hk. simpl in Hk.
  repeat (apply elem_of_cons in Hk as [->|Hk];
          [subst d; unfold init_data, dget_default; simpl;
           match goal with |- context [dget pdict ?s] =>
             by destruct (dget pdict s) end|]).
  by apply elem_of_nil in Hk.
Qed.

End ConstructorFacts.

Lemma init_drops_extra_keys_witness :
  dget (MSPileupObj.init_data Samples.pdict0 1 2 3 4) "pileupType"
  = Some (VStr "classic")
  ∧ MSPileupObj.init Samples.dataset_ok
      (dset Samples.pdict0 "comment" (VStr "x")) Samples.sites 1 2 3 4
    = MSPileupObj.init Samples.dataset_ok Samples.pdict0 Samples.sites 1 2 3 4.
Proof.
  assert ("comment" ∉ MSPileupObj.schema_keys) as Hk.
  { apply (bool_decide_unpack _). by vm_compute. }
  split.
  - refine (proj1 (proj2
      (init_drops_extra_keys Samples.dataset_ok Samples.pdict0 Samples.sites
         1 2 3 4 "comment" (VStr "x") Hk)) "pileupType" (VStr "classic") _ _).
    + apply (bool_decide_unpack _). by vm_compute.
    + reflexivity.
  - exact (proj1 (proj2 (proj2 (proj2 (proj2
      (init_drops_extra_keys Samples.dataset_ok Samples.pdict0 Samples.sites
         1 2 3 4 "comment" (VStr "x") Hk)))))).
Defined.

Lemma init_fills_defaults_witness :
  dget (MSPileupObj.init_data Samples.pdict0 1 2 3 4) "insertTime"
  = Some (VInt 1).
Proof.
  refine (proj1 (proj2
    (init_fills_defaults Samples.dataset_ok Samples.pdict0 Samples.sites
       1 2 3 4 "insertTime" _))).
  apply (bool_decide_unpack _). by vm_compute.
Defined.

(** The candidate omits [containerFraction]; the constructor gives it 1.0,
    which is none of the defaults the specification lists. *)
Lemma init_default_fraction_not_listed :
  dget [] "containerFraction" = None
  ∧ dget (MSPileupObj.init_data [] 1 2 3 4) "containerFraction"
    = Some (VFloat SF_one)
  ∧ ¬ listed_default (VFloat SF_one).
Proof.
  split; [done|]. split; [done|].
  intros [H|[H|[H|[H|[t H]]]]]; discriminate.
Qed.

(** ** Site lists and the container fraction *)

Section FieldRules.
Import MSPileupObj.
Variable dataset : string → bool.

Lemma in_strs_spec x valid :
  in_strs x valid = true ↔ ∃ s, x = VStr s ∧ s ∈ valid.
Proof.
  destruct x; simpl; try (split; [done | intros (s' & ? & _); done]).
  rewrite bool_decide_eq_true. split.
  - intros H. by exists s.
  - intros (s' & [= ->] & H). done.
Qed.

Lemma list_eq_strs_spec l valid :
  list_eq_strs l valid = true ↔ l = VStr <$> valid.
Proof.
  revert valid. induction l as [|x l IH]; intros [|s' valid]; simpl;
    try done.
  - by destruct x.
  - destruct x; try done.
    rewrite andb_true_iff, String.eqb_eq, IH. split.
    + intros [-> ->]. done.
    + intros [= -> ->]. done.
Qed.

Lemma all_rses_valid_spec valid l :
  all_rses_valid valid l = true ↔ ∀ x, x ∈ l → in_strs x valid = true.
Proof.
  induction l as [|x l IH]; simpl.
  - split; [|done]. intros _ x H. by apply elem_of_nil in H.
  - destruct (in_strs x valid) eqn:E; simpl.
    + rewrite IH. split.
      * intros H y Hy. apply elem_of_cons in Hy as [->|Hy]; auto.
      * intros H y Hy. apply H. by right.
    + split; [done|]. intros H. rewrite <- E. apply H. left.
Qed.

(** [validateRSEs] answers [True] exactly when every element is a valid
    site or the list is the list of valid sites. *)
Lemma validateRSEs_spec valid l :
  validateRSEs valid l = true ↔
  (∀ x, x ∈ l → ∃ s, x = VStr s ∧ s ∈ valid) ∨ l = VStr <$> valid.
Proof.
  unfold validateRSEs. destruct (list_eq_strs l valid) eqn:E.
  - apply list_eq_strs_spec in E. split; [by right | done].
  - rewrite all_rses_valid_spec. split.
    + intros H. left. intros x Hx. apply in_strs_spec. auto.
    + intros [H|H].
      * intros x Hx. apply in_strs_spec. auto.
      * apply list_eq_strs_spec in H. congruence.
Qed.

Lemma check_item_rses valid key l :
  key ∈ ["expectedRSEs"; "currentRSEs"] →
  check_item dataset valid key (VList l) =
    if validateRSEs valid l then None
    else Some (MsgBadRSEs key (VList l) valid).
Proof.
  intros Hk. apply elem_of_cons in Hk as [->|Hk];
    [|apply list_elem_of_singleton in Hk as ->];
    unfold check_item; simpl; by destruct (validateRSEs valid l).
Qed.

(** C6.  For every valid-site list and every [expectedRSEs] or
    [currentRSEs] list: when the list holds an element that is not a valid
    site, validation fails; when every element is a valid site, or the list
    is the valid-site list, validation of the dictionary whose other fields
    are valid succeeds. *)
Theorem validate_site_lists (self : MSPileupObj.t) (d : pydict)
    (key : string) (l : list pyval) :
  key ∈ ["expectedRSEs"; "currentRSEs"] →
  let member x := ∃ s, x = VStr s ∧ s ∈ validRSEs self in
  ((key, VList l) ∈ d → (∃ x, x ∈ l ∧ ¬ member x) →
   l ≠ VStr <$> validRSEs self
   ∧ (validate dataset self (Some d)).1 = false)
  ∧ (NoDup (dkeys d) → keyset d = list_to_set schema_keys →
     (∀ k' v', (k', v') ∈ d → k' ≠ key →
               check_item dataset (validRSEs self) k' v' = None) →
     (∀ x, x ∈ l → member x) ∨ l = VStr <$> validRSEs self →
     validate dataset self (Some (dset d key (VList l))) = (true, MsgEmpty)).
Proof.
  intros Hk member. split.
  - intros Hin (x & Hx & Hbad).
    assert (validateRSEs (validRSEs self) l = false) as Hv.
    { destruct (validateRSEs (validRSEs self) l) eqn:E; [|done].
      apply validateRSEs_spec in E as [E|E]; [destruct Hbad; by apply E|].
      destruct Hbad. subst l. apply list_elem_of_fmap in Hx as (s & -> & Hs).
      by exists s. }
    split.
    + intros ->. destruct Hbad.
      apply list_elem_of_fmap in Hx as (s & -> & Hs). by exists s.
    + eapply validate_bad_item; [exact Hin|].
      rewrite check_item_rses by done. by rewrite Hv.
  - intros Hnd Hks Hothers Hl. apply validate_dset; try done.
    rewrite check_item_rses by done.
    by rewrite (proj2 (validateRSEs_spec (validRSEs self) l) Hl).
Qed.

Lemma SFcompare_antisym a b :
  SFcompare b a = CompOpp <$> SFcompare a b.
Proof.
  destruct a as [[|]|[|]| |[|] m1 e1], b as [[|]|[|]| |[|] m2 e2];
    simpl; try done;
    rewrite (Z.compare_antisym e2 e1); destruct (e2 ?= e1)%Z; simpl;
    try done;
    rewrite (Pos.compare_cont_antisym m1 m2 Eq); simpl;
    by destruct (Pos.compare_cont Eq m2 m1).
Qed.

Lemma SFleb_not_gt a b : SFleb a b = true → SFltb b a = false.
Proof.
  unfold SFleb, SFltb. rewrite (SFcompare_antisym a b).
  by destruct (SFcompare a b) as [[| |]|].
Qed.

Lemma check_item_fraction valid f :
  check_item dataset valid "containerFraction" (VFloat f) =
    if gt_one f || lt_zero f then Some (MsgBadFraction (VFloat f)) else None.
Proof. unfold check_item. simpl. by destruct (gt_one f || lt_zero f). Qed.

(** C7.  A [containerFraction] strictly greater than 1 or strictly less
    than 0 fails validation (as does any value that is not a float); a float
    from 0.0 to 1.0, both included, passes when the other fields of the
    dictionary are valid. *)
Theorem validate_container_fraction (self : MSPileupObj.t) (d : pydict)
    (v : pyval) :
  (("containerFraction", v) ∈ d →
   (∀ f, v = VFloat f → SFltb SF_one f = true ∨ SFltb f SF_zero = true) →
   (validate dataset self (Some d)).1 = false)
  ∧ (∀ f, NoDup (dkeys d) → keyset d = list_to_set schema_keys →
     (∀ k' v', (k', v') ∈ d → k' ≠ "containerFraction" →
               check_item dataset (validRSEs self) k' v' = None) →
     SFleb SF_zero f = true → SFleb f SF_one = true →
     validate dataset self (Some (dset d "containerFraction" (VFloat f)))
     = (true, MsgEmpty)).
Proof.
  split.
  - intros Hin Hout. eapply validate_bad_item; [exact Hin|].
    destruct v; try done.
    rewrite check_item_fraction. unfold gt_one, lt_zero.
    destruct (Hout f eq_refl) as [-> | ->]; [done|].
    by rewrite orb_true_r.
  - intros f Hnd Hks Hothers H0 H1. apply validate_dset; try done.
    rewrite check_item_fraction. unfold gt_one, lt_zero.
    by rewrite (SFleb_not_gt _ _ H1), (SFleb_not_gt _ _ H0).
Qed.

End FieldRules.

Section FieldRuleWitnesses.
Import MSPileupObj Samples.

Ltac by_computation := apply (bool_decide_unpack _); by vm_compute.
Ltac find_item := vm_compute; repeat first [left | right].

Lemma doc0_other_fields key :
  key ∈ ["expectedRSEs"; "currentRSEs"; "containerFraction"] →
  ∀ k' v', (k', v') ∈ doc0 → k' ≠ key →
           check_item dataset_ok (validRSEs obj0) k' v' = None.
Proof.
  intros _ k' v' Hin _. vm_compute in Hin.
  repeat (apply elem_of_cons in Hin as [Heq|Hin];
          [inversion Heq; subst; by vm_compute|]).
  by apply elem_of_nil in Hin.
Defined.

Lemma validate_site_lists_witness :
  (validate dataset_ok obj0
     (Some (dset doc0 "expectedRSEs" (VList [VStr "Disk1"; VStr "Mars"])))).1
  = false
  ∧ validate dataset_ok obj0
      (Some (dset doc0 "currentRSEs" (VList [VStr "Disk2"])))
    = (true, MsgEmpty).
Proof.
  split.
  - refine (proj2 (proj1
      (validate_site_lists dataset_ok obj0
         (dset doc0 "expectedRSEs" (VList [VStr "Disk1"; VStr "Mars"]))
         "expectedRSEs" [VStr "Disk1"; VStr "Mars"] _) _ _)).
    + left.
    + find_item.
    + exists (VStr "Mars"). split; [find_item|].
      intros (s & [= <-] & Hs). revert Hs. by_computation.
  - refine (proj2
      (validate_site_lists dataset_ok obj0 doc0
         "currentRSEs" [VStr "Disk2"] _) _ _ _ _).
    + right. left.
    + by_computation.
    + reflexivity.
    + apply doc0_other_fields. find_item.
    + left. intros x Hx. apply list_elem_of_singleton in Hx as ->.
      exists "Disk2". split; [done | find_item].
Defined.

Lemma validate_container_fraction_witness :
  (validate dataset_ok obj0
     (Some (dset doc0 "containerFraction" (VFloat SF_two)))).1 = false
  ∧ validate dataset_ok obj0
      (Some (dset doc0 "containerFraction" (VFloat SF_one)))
    = (true, MsgEmpty)
  ∧ validate dataset_ok obj0
      (Some (dset doc0 "containerFraction" (VFloat SF_zero)))
    = (true, MsgEmpty).
Proof.
  split; [|split].
  - refine (proj1
      (validate_container_fraction dataset_ok obj0
         (dset doc0 "containerFraction" (VFloat SF_two)) (VFloat SF_two)) _ _).
    + find_item.
    + intros f [= <-]. by left.
  - refine (proj2
      (validate_container_fraction dataset_ok obj0 doc0 VNone)
      SF_one _ _ _ _ _).
    + by_computation.
    + reflexivity.
    + apply doc0_other_fields. find_item.
    + reflexivity.
    + reflexivity.
  - refine (proj2
      (validate_container_fraction dataset_ok obj0 doc0 VNone)
      SF_zero _ _ _ _ _).
    + by_computation.
    + reflexivity.
    + apply doc0_other_fields. find_item.
    + reflexivity.
    + reflexivity.
Defined.

End FieldRuleWitnesses.

(** ** The store *)

Lemma pyval_eqb_refl : ∀ a, pyval_eqb a a = true.
Proof.
  fix IH 1. intros [| b | z | f | s | l | n]; simpl.
  - done.
  - by destruct b.
  - apply Z.eqb_refl.
  - by apply bool_decide_eq_true_2.
  - apply String.eqb_refl.
  - induction l as [|x l IHl]; [done|].
    by rewrite IH, IHl.
  - apply N.eqb_refl.
Qed.

Lemma dget_dpop_eq d k : dget (dpop d k) k = None.
Proof.
  apply dget_None_keys. unfold dkeys, dpop. intros H.
  apply list_elem_of_fmap in H as ([k' v'] & -> & H).
  apply list_elem_of_filter in H as [H _]. by apply H.
Qed.

Lemma dget_apply_set setdoc d k :
  NoDup (dkeys setdoc) →
  dget (Store.apply_set setdoc d) k
  = match dget setdoc k with Some v => Some v | None => dget d k end.
Proof.
  unfold Store.apply_set, dkeys. revert d.
  induction setdoc as [|[k0 v0] rest IH]; intros d Hnd; simpl; [done|].
  apply NoDup_cons in Hnd as [Hk0 Hnd]. rewrite IH by done.
  destruct (String.eqb k k0) eqn:E.
  - apply String.eqb_eq in E. subst k0.
    rewrite (proj2 (dget_None_keys rest k)) by done.
    apply dget_dset_eq.
  - apply String.eqb_neq in E. destruct (dget rest k); [done|].
    apply dget_dset_ne. congruence.
Qed.

Lemma matches_name d pname :
  Store.matches [("pileupName", pname)] d
  = Store.same_key (dget d "pileupName") (Some pname).
Proof.
  unfold Store.matches, Store.same_key. simpl.
  destruct (dget d "pileupName"); [apply andb_true_r | done].
Qed.

Lemma matches_name_Some d pname :
  dget d "pileupName" = Some pname →
  Store.matches [("pileupName", pname)] d = true.
Proof.
  intros H. rewrite matches_name, H. simpl. apply pyval_eqb_refl.
Qed.

Lemma update_first_filter spec setdoc c d :
  filter (λ x, Store.matches spec x) c = [d] →
  Store.matches spec (Store.apply_set setdoc d) = true →
  filter (λ x, Store.matches spec x) (Store.update_first spec setdoc c)
  = [Store.apply_set setdoc d].
Proof.
  intros Hc Hd'. induction c as [|x c IH]; simpl; [done|].
  destruct (Store.matches spec x) eqn:E.
  - rewrite filter_cons_True in Hc by (by apply Is_true_true).
    injection Hc as -> Hc.
    rewrite filter_cons_True by (by apply Is_true_true). by rewrite Hc.
  - rewrite filter_cons_False in Hc by (by apply Is_true_false).
    rewrite filter_cons_False by (by apply Is_true_false). by apply IH.
Qed.

Lemma index_free_filter doc c pname :
  dget doc "pileupName" = Some pname →
  Store.index_violated doc c = false →
  filter (λ x, Store.matches [("pileupName", pname)] x) c = [].
Proof.
  intros Hdoc. unfold Store.index_violated. rewrite Hdoc.
  induction c as [|x c IH]; [done|].
  intros H. cbn [existsb] in H. apply orb_false_iff in H as [Hx Hc].
  rewrite filter_cons_False
    by (apply Is_true_false; by rewrite matches_name).
  by apply IH.
Qed.

(** ** The registry *)

Section RegistryFacts.
Import MSPileupError MSPileupData.
Variable dataset : string → bool.
Variable validRSEs : list string.

Lemma getPileup_eq spec projection w :
  getPileup spec projection w =
    match fault w (calls w) with
    | Some e => (Raise e, after_call w)
    | None =>
        (Ret (strip_id <$> (Store.project projection
                <$> filter (λ d, Store.matches spec d) (coll w))),
         after_call w)
    end.
Proof.
  unfold getPileup, Store.find, Store.call, bind, ret, after_call.
  by destruct (fault w (calls w)).
Qed.

Lemma deletePileup_eq spec w :
  deletePileup spec w =
    match fault w (calls w) with
    | Some e =>
        (Ret [error StoreError spec (EUnableDelete spec e) None], after_call w)
    | None =>
        (Ret [], set_coll (Store.delete_first spec (coll w)) (after_call w))
    end.
Proof.
  unfold deletePileup, try_except, Store.delete_one, Store.call, bind, ret,
    after_call.
  by destruct (fault w (calls w)).
Qed.

Lemma update_write_eq spec doc w :
  let doc' := dset doc "lastUpdateTime" (VInt (gmtime w (ticks w))) in
  update_write spec doc w =
    match fault w (calls w) with
    | Some e =>
        (Ret [error StoreError doc' (EFailedInsert doc' e) (Some e)],
         after_call (after_ticks 1 w))
    | None =>
        (Ret [], set_coll (Store.update_first spec doc' (coll w))
                   (after_call (after_ticks 1 w)))
    end.
Proof.
  unfold update_write, try_except, Store.update_one, Store.call, bind, ret,
    gmtimeSeconds, after_call, after_ticks. simpl.
  by destruct (fault w (calls w)).
Qed.

Lemma createPileup_eq pdict w :
  let t n := gmtime w (n + ticks w) in
  let d := MSPileupObj.init_data pdict (t 0) (t 1) (t 2) (t 3) in
  let w4 := after_ticks 4 w in
  createPileup dataset validRSEs pdict w =
    match MSPileupObj.init dataset pdict validRSEs (t 0) (t 1) (t 2) (t 3) with
    | inr msg =>
        (Ret [error DuplicateDocument pdict
                (EFailedCreate (PyException msg)) None], w4)
    | inl _ =>
        match fault w (calls w) with
        | Some DuplicateKeyError =>
            (Ret [error DuplicateDocument d (EAlreadyExists d) None],
             after_call w4)
        | Some e => (Raise e, after_call w4)
        | None =>
            if Store.index_violated d (coll w)
            then (Ret [error DuplicateDocument d (EAlreadyExists d) None],
                  after_call w4)
            else (Ret [],
                  mkWorld (coll w ++ [("_id", VOid (next_oid w)) :: d])
                    (N.succ (next_oid w)) (gmtime w) (4 + ticks w)
                    (fault w) (S (calls w)))
        end
    end.
Proof.
  intros t d w4. subst t d w4.
  unfold createPileup, bind, gmtimeSeconds. simpl.
  destruct (MSPileupObj.init _ _ _ _ _ _ _) as [obj|msg] eqn:E;
    [|reflexivity].
  rewrite init_spec in E.
  destruct (MSPileupObj.validate dataset _ _).1; [|done].
  injection E as <-.
  unfold MSPileupObj.getPileupData, try_except, Store.insert_one, Store.call,
    bind, ret. simpl.
  destruct (fault w (calls w)) as [[]|]; simpl; try reflexivity.
  destruct (Store.index_violated _ _); reflexivity.
Qed.

End RegistryFacts.

Section RegistryClaims.
Import MSPileupError MSPileupData.
Variable dataset : string → bool.
Variable validRSEs : list string.

Lemma project_None (l : list pydict) : Store.project None <$> l = l.
Proof. induction l as [|x l IH]; [done|]. rewrite fmap_cons. by f_equal. Qed.

Lemma updatePileup_eq doc w :
  let pname := dget_default doc "pileupName" (VStr "") in
  let spec := [("pileupName", pname)] in
  updatePileup doc w =
    if negb (truthy pname)
    then (Ret [error KeyNotFound doc (ENoDocument pname) None], w)
    else match fault w (calls w) with
         | Some e => (Raise e, after_call w)
         | None =>
             match filter (λ d, Store.matches spec d) (coll w) with
             | [] =>
                 (Ret [error KeyNotFound spec (ENoDocumentQuery spec) None],
                  after_call w)
             | [_] => update_write spec doc (after_call w)
             | _ =>
                 (Ret [error UniqueConstraintViolated spec
                         (EUniqueViolated pname) None],
                  after_call w)
             end
         end.
Proof.
  intros pname spec. unfold updatePileup. fold pname. fold spec.
  destruct (negb (truthy pname)); [done|].
  unfold bind. rewrite getPileup_eq.
  destruct (fault w (calls w)); [done|]. rewrite project_None.
  destruct (filter _ (coll w)) as [|d1 [|d2 l]]; done.
Qed.

(** C4.  [updatePileup] returns exactly one KeyNotFound error when the
    [pileupName] of the document is absent or empty (or otherwise false),
    without touching the store; when the lookup returns, it returns exactly
    one KeyNotFound error for no match and exactly one
    UniqueConstraintViolated error for more than one match, the collection
    unchanged in both cases; and with exactly one match it goes on to the
    write. *)
Theorem updatePileup_lookup (doc : pydict) (w : World) :
  let pname := dget_default doc "pileupName" (VStr "") in
  let spec := [("pileupName", pname)] in
  let found := filter (λ d, Store.matches spec d) (coll w) in
  (dget doc "pileupName" = None ∨ truthy pname = false →
   updatePileup doc w
   = (Ret [error KeyNotFound doc (ENoDocument pname) None], w))
  ∧ (truthy pname = true → fault w (calls w) = None →
     (found = [] →
      updatePileup doc w
      = (Ret [error KeyNotFound spec (ENoDocumentQuery spec) None],
         after_call w)
      ∧ coll (updatePileup doc w).2 = coll w)
     ∧ (1 < length found →
        updatePileup doc w
        = (Ret [error UniqueConstraintViolated spec
                  (EUniqueViolated pname) None],
           after_call w)
        ∧ coll (updatePileup doc w).2 = coll w)
     ∧ (length found = 1 →
        updatePileup doc w = update_write spec doc (after_call w))).
Proof.
  intros pname spec found. rewrite updatePileup_eq. fold pname spec found.
  split.
  - intros [Habs|Hfalse].
    + assert (truthy pname = false) as ->; [|done].
      unfold pname, dget_default. by rewrite Habs.
    + by rewrite Hfalse.
  - intros -> ->. simpl. destruct found as [|d1 [|d2 l]]; simpl.
    + split; [done|]. split; [lia | done].
    + split; [done|]. split; [lia | done].
    + split; [done|]. split; [done | lia].
Qed.

(** C1, amended.  [deletePileup] and the write of [updatePileup] return a
    list for every behaviour of the store: one StoreError when the store
    call fails, the collection untouched, and the empty list when it goes
    through.  [createPileup] returns exactly one DuplicateDocument error,
    nothing inserted, when the defaulted candidate fails validation (the
    store is then not called) or when the store reports a duplicate key, and
    the empty list when the insert goes through, the validated document
    being then the one added to the collection.  [getPileup] returns the
    matching documents, stripped of ["_id"], when the store answers; it has
    no handler, so a failure of its lookup leaves it as an exception. *)
Theorem registry_failure_modes (spec doc pdict : pydict)
    (projection : option (list string)) (w : World) :
  let t n := gmtime w (n + ticks w) in
  let d := MSPileupObj.init_data pdict (t 0) (t 1) (t 2) (t 3) in
  let checked :=
    MSPileupObj.validate dataset (MSPileupObj.mk d validRSEs) (Some d) in
  let doc' := dset doc "lastUpdateTime" (VInt (gmtime w (ticks w))) in
  let pname := dget_default doc "pileupName" (VStr "") in
  (∀ e, fault w (calls w) = Some e →
     deletePileup spec w
     = (Ret [error StoreError spec (EUnableDelete spec e) None], after_call w)
     ∧ update_write spec doc w
       = (Ret [error StoreError doc' (EFailedInsert doc' e) (Some e)],
          after_call (after_ticks 1 w))
     ∧ getPileup spec projection w = (Raise e, after_call w))
  ∧ (fault w (calls w) = None →
     deletePileup spec w
     = (Ret [], set_coll (Store.delete_first spec (coll w)) (after_call w))
     ∧ update_write spec doc w
       = (Ret [], set_coll (Store.update_first spec doc' (coll w))
                    (after_call (after_ticks 1 w)))
     ∧ getPileup spec projection w
       = (Ret (strip_id <$> (Store.project projection
                 <$> filter (λ x, Store.matches spec x) (coll w))),
          after_call w))
  ∧ (∀ x e,
       truthy pname = true →
       filter (λ y, Store.matches [("pileupName", pname)] y) (coll w) = [x] →
       fault w (calls w) = None → fault w (S (calls w)) = Some e →
       (updatePileup doc w).1
       = Ret [error StoreError doc' (EFailedInsert doc' e) (Some e)]
       ∧ coll (updatePileup doc w).2 = coll w)
  ∧ (checked.1 = false →
     createPileup dataset validRSEs pdict w
     = (Ret [error DuplicateDocument pdict
               (EFailedCreate (PyException checked.2)) None],
        after_ticks 4 w))
  ∧ (checked.1 = true →
     fault w (calls w) = Some DuplicateKeyError
     ∨ (fault w (calls w) = None ∧ Store.index_violated d (coll w) = true) →
     createPileup dataset validRSEs pdict w
     = (Ret [error DuplicateDocument d (EAlreadyExists d) None],
        after_call (after_ticks 4 w)))
  ∧ (checked.1 = true → fault w (calls w) = None →
     Store.index_violated d (coll w) = false →
     createPileup dataset validRSEs pdict w
     = (Ret [],
        mkWorld (coll w ++ [("_id", VOid (next_oid w)) :: d])
          (N.succ (next_oid w)) (gmtime w) (4 + ticks w) (fault w)
          (S (calls w)))).
Proof.
  intros t d checked doc' pname.
  assert (createPileup dataset validRSEs pdict w =
          if checked.1
          then match fault w (calls w) with
               | Some DuplicateKeyError =>
                   (Ret [error DuplicateDocument d (EAlreadyExists d) None],
                    after_call (after_ticks 4 w))
               | Some e => (Raise e, after_call (after_ticks 4 w))
               | None =>
                   if Store.index_violated d (coll w)
                   then (Ret [error DuplicateDocument d (EAlreadyExists d)
                                None],
                         after_call (after_ticks 4 w))
                   else (Ret [],
                         mkWorld (coll w ++ [("_id", VOid (next_oid w)) :: d])
                           (N.succ (next_oid w)) (gmtime w) (4 + ticks w)
                           (fault w) (S (calls w)))
               end
          else (Ret [error DuplicateDocument pdict
                       (EFailedCreate (PyException checked.2)) None],
                after_ticks 4 w)) as Hcreate.
  { rewrite createPileup_eq, init_spec.
    change (MSPileupObj.init_data pdict _ _ _ _) with d. fold checked.
    destruct checked.1; reflexivity. }
  split; [|split; [|split; [|split; [|split]]]].
  - intros e He. rewrite deletePileup_eq, update_write_eq, getPileup_eq, He.
    split; [reflexivity | split; reflexivity].
  - intros He. rewrite deletePileup_eq, update_write_eq, getPileup_eq, He.
    split; [reflexivity | split; reflexivity].
  - intros x e Hname Hone Hf1 Hf2.
    rewrite updatePileup_eq. fold pname. rewrite Hname, Hf1, Hone.
    cbn [negb]. rewrite update_write_eq.
    change (fault (after_call w) (calls (after_call w)))
      with (fault w (S (calls w))).
    rewrite Hf2. split; reflexivity.
  - intros Hbad. rewrite Hcreate, Hbad. reflexivity.
  - intros Hok [Hdup|[Hnone Hidx]]; rewrite Hcreate, Hok.
    + rewrite Hdup. reflexivity.
    + rewrite Hnone, Hidx. reflexivity.
  - intros Hok Hnone Hidx. rewrite Hcreate, Hok, Hnone, Hidx. reflexivity.
Qed.

(** The two store failures for which no handler is written: a failure of
    the insert other than a duplicate key, and a failure of the lookup of
    [updatePileup]. *)
Lemma unhandled_store_failures (doc pdict : pydict) (w : World) (e : exn) :
  fault w (calls w) = Some e →
  (truthy (dget_default doc "pileupName" (VStr "")) = true →
   (updatePileup doc w).1 = Raise e)
  ∧ (e ≠ DuplicateKeyError →
     (∃ obj, MSPileupObj.init dataset pdict validRSEs
               (gmtime w (0 + ticks w)) (gmtime w (1 + ticks w))
               (gmtime w (2 + ticks w)) (gmtime w (3 + ticks w)) = inl obj) →
     (createPileup dataset validRSEs pdict w).1 = Raise e).
Proof.
  intros He. split.
  - intros Hname. by rewrite updatePileup_eq, Hname, He.
  - intros Hne [obj Hobj]. rewrite createPileup_eq, Hobj, He.
    destruct e; [reflexivity | destruct Hne; reflexivity | reflexivity].
Qed.

End RegistryClaims.

Lemma dkeys_dset_notin d k v : k ∉ dkeys d → dkeys (dset d k v) = dkeys d ++ [k].
Proof.
  unfold dkeys. induction d as [|[k' v'] d IH]; simpl; [done|].
  rewrite not_elem_of_cons. intros [Hne Hd].
  destruct (String.eqb k k') eqn:E.
  - apply String.eqb_eq in E. done.
  - simpl. f_equal. by apply IH.
Qed.

Lemma NoDup_dkeys_dset d k v : NoDup (dkeys d) → NoDup (dkeys (dset d k v)).
Proof.
  intros Hnd. destruct (decide (k ∈ dkeys d)) as [Hin|Hout].
  - by rewrite dkeys_dset_in.
  - rewrite dkeys_dset_notin by done. apply NoDup_app. split; [done|].
    split; [|apply NoDup_singleton].
    intros x Hx Hx'. apply list_elem_of_singleton in Hx'. by subst.
Qed.

Lemma truthy_name_present doc :
  truthy (dget_default doc "pileupName" (VStr "")) = true →
  dget doc "pileupName" = Some (dget_default doc "pileupName" (VStr "")).
Proof. unfold dget_default. by destruct (dget doc "pileupName"). Qed.

Lemma strip_id_no_id doc : dget (strip_id doc) "_id" = None.
Proof.
  unfold strip_id, stripKeys_doc. destruct doc as [|kv doc]; [done|].
  simpl. apply dget_dpop_eq.
Qed.

Section RegistryRecords.
Import MSPileupError MSPileupData.
Variable dataset : string → bool.
Variable validRSEs : list string.

(** C2, amended.  After an update of a record matched exactly once (the
    store answering both calls), the record is still the only match; its
    [lastUpdateTime] is the clock reading of the update, hence not smaller
    than the previous one whenever the clock is not behind the stored value;
    its [insertTime] is the one of the input document when the document has
    that key and the stored one otherwise, hence unchanged when the document
    has no [insertTime] or carries the stored value. *)
Theorem updatePileup_timestamps (doc : pydict) (w : World) (d : pydict) :
  let pname := dget_default doc "pileupName" (VStr "") in
  let spec := [("pileupName", pname)] in
  let now := gmtime w (ticks w) in
  NoDup (dkeys doc) → truthy pname = true →
  fault w (calls w) = None → fault w (S (calls w)) = None →
  filter (λ x, Store.matches spec x) (coll w) = [d] →
  ∃ d', (updatePileup doc w).1 = Ret []
    ∧ filter (λ x, Store.matches spec x) (coll (updatePileup doc w).2) = [d']
    ∧ dget d' "lastUpdateTime" = Some (VInt now)
    ∧ (∀ prev, dget d "lastUpdateTime" = Some (VInt prev) → (prev ≤ now)%Z →
         ∃ new, dget d' "lastUpdateTime" = Some (VInt new) ∧ (prev ≤ new)%Z)
    ∧ dget d' "insertTime"
      = match dget doc "insertTime" with
        | Some v => Some v
        | None => dget d "insertTime"
        end
    ∧ (dget doc "insertTime" = None
       ∨ dget doc "insertTime" = dget d "insertTime" →
       dget d' "insertTime" = dget d "insertTime").
Proof.
  intros pname spec now Hnd Hname Hf1 Hf2 Hone.
  set (doc' := dset doc "lastUpdateTime" (VInt now)).
  assert (NoDup (dkeys doc')) as Hnd' by by apply NoDup_dkeys_dset.
  assert (dget (Store.apply_set doc' d) "lastUpdateTime" = Some (VInt now))
    as Hlast.
  { rewrite dget_apply_set by done. subst doc'. by rewrite dget_dset_eq. }
  assert (dget (Store.apply_set doc' d) "insertTime"
          = match dget doc "insertTime" with
            | Some v => Some v
            | None => dget d "insertTime"
            end) as Hins.
  { rewrite dget_apply_set by done. subst doc'. by rewrite dget_dset_ne. }
  exists (Store.apply_set doc' d).
  rewrite updatePileup_eq. fold pname spec. rewrite Hname, Hf1, Hone.
  cbn [negb]. rewrite update_write_eq.
  change (fault (after_call w) (calls (after_call w)))
    with (fault w (S (calls w))).
  rewrite Hf2. unfold set_coll. cbn [fst snd coll after_call after_ticks].
  fold now doc'.
  split; [done|]. split; [|split; [done|split; [|split; [done|]]]].
  - apply update_first_filter; [done|]. apply matches_name_Some.
    rewrite dget_apply_set by done. subst doc'. rewrite dget_dset_ne by done.
    by rewrite (truthy_name_present doc Hname).
  - intros prev _ Hle. by exists now.
  - rewrite Hins. intros [-> | ->]; [done|]. by destruct (dget d "insertTime").
Qed.

(** C8.  No document [getPileup] returns has the key ["_id"]; and after a
    [createPileup] that returned the empty list, [getPileup] by the
    [pileupName] of the created document returns exactly that document: the
    fifteen schema fields with the values the constructor gave them. *)
Theorem getPileup_strips_id_and_reads_back (pdict : pydict) (w : World) :
  (∀ spec projection docs d,
     (getPileup spec projection w).1 = Ret docs → d ∈ docs →
     dget d "_id" = None)
  ∧ (let t n := gmtime w (n + ticks w) in
     let created := MSPileupObj.init_data pdict (t 0) (t 1) (t 2) (t 3) in
     let name := dget_default pdict "pileupName" (VStr "") in
     let w' := (createPileup dataset validRSEs pdict w).2 in
     (createPileup dataset validRSEs pdict w).1 = Ret [] →
     fault w' (calls w') = None →
     dkeys created = MSPileupObj.schema_keys
     ∧ dget created "pileupName" = Some name
     ∧ (getPileup [("pileupName", name)] None w').1 = Ret [created]).
Proof.
  split.
  - intros spec projection docs d. rewrite getPileup_eq.
    destruct (fault w (calls w)); [done|]. simpl. intros [= <-] Hd.
    apply list_elem_of_fmap in Hd as (x & -> & _). apply strip_id_no_id.
  - intros t created name w'. subst w'. rewrite createPileup_eq.
    change (MSPileupObj.init_data pdict _ _ _ _) with created.
    destruct (MSPileupObj.init _ _ _ _ _ _ _); [|by cbn].
    destruct (fault w (calls w)) as [[]|]; try by cbn.
    destruct (Store.index_violated created (coll w)) eqn:Hidx; [by cbn|].
    cbn [fst snd fault calls]. intros _ Hf. split; [done|]. split; [done|].
    rewrite getPileup_eq. cbn [fst snd fault calls coll]. rewrite Hf.
    cbn [fst]. f_equal.
    rewrite project_None, filter_app.
    rewrite (index_free_filter created) by done.
    rewrite filter_cons_True
      by (apply Is_true_true; by apply matches_name_Some).
    reflexivity.
Qed.

End RegistryRecords.

Section RegistryExamples.
Import MSPileupError MSPileupData Samples.

Lemma updatePileup_lookup_witness :
  updatePileup [("pileupType", VStr "premix")] world1
  = (Ret [error KeyNotFound [("pileupType", VStr "premix")]
            (ENoDocument (VStr "")) None], world1)
  ∧ updatePileup [("pileupName", VStr "")] world1
    = (Ret [error KeyNotFound [("pileupName", VStr "")]
              (ENoDocument (VStr "")) None], world1)
  ∧ (updatePileup [("pileupName", VStr "/X/Y/Z")] world1
     = (Ret [error KeyNotFound [("pileupName", VStr "/X/Y/Z")]
               (ENoDocumentQuery [("pileupName", VStr "/X/Y/Z")]) None],
        after_call world1)
     ∧ coll (updatePileup [("pileupName", VStr "/X/Y/Z")] world1).2
       = coll world1)
  ∧ (updatePileup name0 world_twice
     = (Ret [error UniqueConstraintViolated name0
               (EUniqueViolated (VStr "/A/B/C")) None],
        after_call world_twice)
     ∧ coll (updatePileup name0 world_twice).2 = coll world_twice)
  ∧ updatePileup name0 world1 = update_write name0 name0 (after_call world1).
Proof.
  split; [|split; [|split; [|split]]].
  - refine (proj1 (updatePileup_lookup [("pileupType", VStr "premix")] world1) _).
    left. reflexivity.
  - refine (proj1 (updatePileup_lookup [("pileupName", VStr "")] world1) _).
    right. reflexivity.
  - refine (proj1 (proj2
      (updatePileup_lookup [("pileupName", VStr "/X/Y/Z")] world1) _ _) _);
      reflexivity.
  - refine (proj1 (proj2 (proj2
      (updatePileup_lookup name0 world_twice) _ _)) _);
      [reflexivity | reflexivity | vm_compute; lia].
  - refine (proj2 (proj2 (proj2
      (updatePileup_lookup name0 world1) _ _)) _); reflexivity.
Defined.

Lemma registry_failure_modes_witness :
  let d := MSPileupObj.init_data pdict0 1000 1001 1002 1003 in
  deletePileup name0 world_down
  = (Ret [error StoreError name0
            (EUnableDelete name0 (StoreFailure "connection lost")) None],
     after_call world_down)
  ∧ deletePileup name0 world1 = (Ret [], set_coll [] (after_call world1))
  ∧ (updatePileup name0 world_write_fails).1
    = Ret [error StoreError
             (dset name0 "lastUpdateTime" (VInt 1000))
             (EFailedInsert (dset name0 "lastUpdateTime" (VInt 1000))
                (StoreFailure "write failed"))
             (Some (StoreFailure "write failed"))]
  ∧ (createPileup dataset_ok sites [("pileupName", VStr "no slash")] world1).1
    = Ret [error DuplicateDocument [("pileupName", VStr "no slash")]
             (EFailedCreate
                (PyException (MSPileupObj.MsgBadDataset (VStr "no slash"))))
             None]
  ∧ createPileup dataset_ok sites pdict0 world1
    = (Ret [error DuplicateDocument d (EAlreadyExists d) None],
       after_call (after_ticks 4 world1))
  ∧ createPileup dataset_ok sites pdict0 world0
    = (Ret [], mkWorld [("_id", VOid 0) :: d] 1 clock0 4 quiet 1).
Proof.
  intros d.
  pose proof (registry_failure_modes dataset_ok sites name0 name0 pdict0 None
                world_down) as (Hdown & _).
  pose proof (registry_failure_modes dataset_ok sites name0 name0 pdict0 None
                world1) as (_ & Hup & _ & _ & Hdup & _).
  pose proof (registry_failure_modes dataset_ok sites name0 name0 pdict0 None
                world_write_fails) as (_ & _ & Hwrite & _).
  pose proof (registry_failure_modes dataset_ok sites name0 name0
                [("pileupName", VStr "no slash")] None world1)
    as (_ & _ & _ & Hbad & _).
  pose proof (registry_failure_modes dataset_ok sites name0 name0 pdict0 None
                world0) as (_ & _ & _ & _ & _ & Hnew).
  split; [|split; [|split; [|split; [|split]]]].
  - exact (proj1 (Hdown (StoreFailure "connection lost") eq_refl)).
  - exact (proj1 (Hup eq_refl)).
  - exact (proj1 (Hwrite (("_id", VOid 0) :: doc0)
                    (StoreFailure "write failed")
                    eq_refl eq_refl eq_refl eq_refl)).
  - exact (f_equal fst (Hbad eq_refl)).
  - exact (Hdup eq_refl (or_intror (conj eq_refl eq_refl))).
  - exact (Hnew eq_refl eq_refl eq_refl).
Defined.

(** The store has lost its connection: [getPileup] raises. *)
Lemma getPileup_raises_when_store_down :
  (getPileup name0 None world_down).1 = Raise (StoreFailure "connection lost").
Proof. reflexivity. Qed.

Lemma updatePileup_timestamps_witness :
  ∃ d', (updatePileup name0 world1).1 = Ret []
        ∧ filter (λ x, Store.matches name0 x) (coll (updatePileup name0 world1).2)
          = [d']
        ∧ dget d' "lastUpdateTime" = Some (VInt 1000)
        ∧ dget d' "insertTime" = Some (VInt 100).
Proof.
  destruct (updatePileup_timestamps name0 world1 (("_id", VOid 0) :: doc0))
    as (d' & H1 & H2 & H3 & _ & _ & H6).
  - apply (bool_decide_unpack _). by vm_compute.
  - reflexivity.
  - reflexivity.
  - reflexivity.
  - reflexivity.
  - exists d'. split; [exact H1|]. split; [exact H2|]. split; [exact H3|].
    rewrite H6; [reflexivity | left; reflexivity].
Defined.

(** Two updates of a record matched exactly once: one carries an
    [insertTime] and overwrites the stored one; the other meets a stored
    [lastUpdateTime] ahead of the clock and sets it back. *)
Lemma updatePileup_overwrites_timestamps :
  let stored d (w : World) :=
    (λ x, dget x d) <$> filter (λ x, Store.matches name0 x) (coll w) in
  (stored "insertTime" world1 = [Some (VInt 100)]
   ∧ (updatePileup update_insert world1).1 = Ret []
   ∧ stored "insertTime" (updatePileup update_insert world1).2
     = [Some (VInt 5)])
  ∧ (let w := (createPileup dataset_ok sites pdict_ahead world0).2 in
     (createPileup dataset_ok sites pdict_ahead world0).1 = Ret []
     ∧ stored "lastUpdateTime" w = [Some (VInt 5000)]
     ∧ (updatePileup name0 w).1 = Ret []
     ∧ stored "lastUpdateTime" (updatePileup name0 w).2
       = [Some (VInt 1004)]).
Proof. by vm_compute. Qed.

Lemma getPileup_strips_id_and_reads_back_witness :
  dget doc0 "_id" = None
  ∧ (getPileup name0 None (createPileup dataset_ok sites pdict0 world0).2).1
    = Ret [MSPileupObj.init_data pdict0 1000 1001 1002 1003].
Proof.
  split.
  - refine (proj1
      (getPileup_strips_id_and_reads_back dataset_ok sites pdict0 world1)
      name0 None [doc0] doc0 _ _); [reflexivity | left].
  - refine (proj2 (proj2 (proj2
      (getPileup_strips_id_and_reads_back dataset_ok sites pdict0 world0)
      _ _))); reflexivity.
Defined.

End RegistryExamples.

(** ** stripKeys on shared dictionaries *)

Section StripKeys.
Import Heap.

Lemma strip_dict_lookup_eq doc skeys (h : gmap loc pydict) :
  strip_dict doc skeys h !! doc = (λ d, fold_left dpop skeys d) <$> h !! doc.
Proof.
  revert h. induction skeys as [|key rest IH]; intros h; simpl.
  - by destruct (h !! doc).
  - rewrite IH. unfold pop. rewrite lookup_alter_eq.
    by destruct (h !! doc).
Qed.

Lemma strip_dict_lookup_ne doc doc' skeys (h : gmap loc pydict) :
  doc ≠ doc' → strip_dict doc skeys h !! doc' = h !! doc'.
Proof.
  intros Hne. revert h. induction skeys as [|key rest IH]; intros h; simpl.
  - done.
  - rewrite IH. unfold pop. by rewrite lookup_alter_ne.
Qed.

(** The inner loop appends the dictionary once per key. *)
Lemma strip_append_eq doc skeys (h : gmap loc pydict) results :
  strip_append doc skeys h results
  = (strip_dict doc skeys h, results ++ replicate (length skeys) doc).
Proof.
  revert h results. induction skeys as [|key rest IH]; intros h results; simpl.
  - by rewrite app_nil_r.
  - rewrite IH. by rewrite <- app_assoc.
Qed.

Lemma obj_truthy_strip_ne doc doc' skeys (h : gmap loc pydict) :
  doc ≠ doc' → obj_truthy (strip_dict doc skeys h) doc' = obj_truthy h doc'.
Proof. intros Hne. unfold obj_truthy. by rewrite strip_dict_lookup_ne. Qed.

Lemma strip_list_eq docs skeys (h : gmap loc pydict) results :
  NoDup docs → (∀ l, l ∈ docs → obj_truthy h l = true) →
  ∃ h', strip_list docs skeys h results
        = (h', results ++ (docs ≫= λ l, replicate (length skeys) l))
    ∧ (∀ l, l ∈ docs →
            h' !! l = (λ d, fold_left dpop skeys d) <$> h !! l)
    ∧ (∀ l, l ∉ docs → h' !! l = h !! l).
Proof.
  revert h results. induction docs as [|doc docs IH]; intros h results Hnd Hall.
  - exists h. simpl. rewrite app_nil_r. split; [done|]. split; [|done].
    intros l Hl. by apply elem_of_nil in Hl.
  - apply NoDup_cons in Hnd as [Hdoc Hnd]. cbn [strip_list].
    rewrite (Hall doc) by left. rewrite strip_append_eq.
    destruct (IH (strip_dict doc skeys h)
                (results ++ replicate (length skeys) doc) Hnd)
      as (h' & Heq & Hin & Hout).
    { intros l Hl. rewrite obj_truthy_strip_ne by (intros ->; done).
      apply Hall. by right. }
    exists h'. rewrite Heq, bind_cons, <- app_assoc.
    split; [done|]. split.
    + intros l Hl. apply elem_of_cons in Hl as [->|Hl].
      * rewrite Hout by done. apply strip_dict_lookup_eq.
      * rewrite Hin by done. rewrite strip_dict_lookup_ne; [done|].
        intros ->. done.
    + intros l Hl. apply not_elem_of_cons in Hl as [Hne Hl].
      rewrite Hout by done. by apply strip_dict_lookup_ne.
Qed.

Lemma filter_eq_replicate (l x : loc) n :
  filter (λ y, y = l) (replicate n x) = if decide (x = l) then replicate n x else [].
Proof.
  induction n as [|n IH]; simpl; [by destruct (decide (x = l))|].
  destruct (decide (x = l)) as [->|Hne].
  - rewrite filter_cons_True by done. by rewrite IH.
  - by rewrite filter_cons_False.
Qed.

Lemma count_in_repeated (docs : list loc) (l : loc) n :
  NoDup docs → l ∈ docs →
  length (filter (λ y, y = l) (docs ≫= λ x, replicate n x)) = n.
Proof.
  induction docs as [|doc docs IH]; intros Hnd Hl.
  - by apply elem_of_nil in Hl.
  - apply NoDup_cons in Hnd as [Hdoc Hnd].
    rewrite bind_cons, filter_app, length_app, filter_eq_replicate.
    apply elem_of_cons in Hl as [->|Hl].
    + rewrite decide_True by done. rewrite length_replicate.
      assert (filter (λ y, y = doc) (docs ≫= λ x, replicate n x) = [])
        as ->; [|simpl; lia].
      clear -Hdoc. induction docs as [|x docs IH]; [done|].
      apply not_elem_of_cons in Hdoc as [Hne Hdoc].
      rewrite bind_cons, filter_app, filter_eq_replicate.
      rewrite decide_False by done. by apply IH.
    + rewrite decide_False by (intros ->; done). simpl. by apply IH.
Qed.

(** C10, amended.  For every list of distinct non-empty dictionaries (no
    dictionary object listed twice) and every list of strip keys, the list
    [stripKeys] returns holds each input dictionary once per strip key, in
    the order of the input, each one having lost all the strip keys; with
    [skeys = None] the input is returned as it is. *)
Theorem stripKeys_repeats_documents (docs : list loc) (skeys : list string)
    (h : gmap loc pydict) :
  NoDup docs →
  (∀ l, l ∈ docs → ∃ d, h !! l = Some d ∧ d ≠ []) →
  (∃ results h',
     stripKeys (ADocs docs) (Some skeys) h = (ADocs results, h')
     ∧ results = (docs ≫= λ l, replicate (length skeys) l)
     ∧ length results = length docs * length skeys
     ∧ (∀ l, l ∈ docs →
             length (filter (λ y, y = l) results) = length skeys)
     ∧ (∀ l, l ∈ docs →
             h' !! l = (λ d, fold_left dpop skeys d) <$> h !! l)
     ∧ (∀ l, l ∉ docs → h' !! l = h !! l))
  ∧ (∀ arg, stripKeys arg None h = (arg, h)).
Proof.
  intros Hnd Hall. split; [|done].
  destruct (strip_list_eq docs skeys h [] Hnd) as (h' & Heq & Hin & Hout).
  { intros l Hl. destruct (Hall l Hl) as (d & Hd & Hne).
    unfold obj_truthy. rewrite Hd. by apply dict_truthy_cons. }
  exists (docs ≫= λ l, replicate (length skeys) l), h'.
  unfold stripKeys. rewrite Heq. simpl.
  split; [done|]. split; [done|]. split; [|split; [|done]].
  - clear. induction docs as [|doc docs IH]; [done|].
    rewrite bind_cons, length_app, length_replicate, IH. simpl. lia.
  - intros l Hl. by apply count_in_repeated.
Qed.

End StripKeys.

Lemma stripKeys_repeats_documents_witness :
  ∃ h', Heap.stripKeys (Heap.ADocs [1%positive; 2%positive])
          (Some ["_id"; "x"])
          (<[1%positive := [("_id", VOid 7); ("a", VInt 1)]]>
             (<[2%positive := [("x", VInt 1)]]> ∅))
        = (Heap.ADocs [1%positive; 1%positive; 2%positive; 2%positive], h')
    ∧ h' !! 1%positive = Some [("a", VInt 1)]
    ∧ h' !! 2%positive = Some [].
Proof.
  destruct (stripKeys_repeats_documents [1%positive; 2%positive]
              ["_id"; "x"]
              (<[1%positive := [("_id", VOid 7); ("a", VInt 1)]]>
                 (<[2%positive := [("x", VInt 1)]]> ∅)))
    as [(results & h' & Heq & -> & _ & _ & Hin & _) _].
  - apply (bool_decide_unpack _). by vm_compute.
  - intros l Hl. apply elem_of_cons in Hl as [->|Hl];
      [|apply list_elem_of_singleton in Hl as ->]; eexists;
      (split; [reflexivity | discriminate]).
  - exists h'. split; [exact Heq|]. split.
    + rewrite Hin by left. reflexivity.
    + rewrite Hin by (right; left). reflexivity.
Defined.

(** The same non-empty dictionary listed twice, one strip key: the
    dictionary is in the result twice, not once. *)
Lemma stripKeys_same_dictionary_twice :
  let h : gmap Heap.loc pydict := <[1%positive := [("a", VInt 1)]]> ∅ in
  h !! 1%positive = Some [("a", VInt 1)]
  ∧ (Heap.stripKeys (Heap.ADocs [1%positive; 1%positive]) (Some ["x"]) h).1
    = Heap.ADocs [1%positive; 1%positive]
  ∧ length (filter (λ y, y = 1%positive) [1%positive; 1%positive]) = 2
  ∧ length ["x"] = 1.
Proof. by vm_compute. Qed.

(** The dictionary branch of [stripKeys] changes the one dictionary as
    [stripKeys_doc] says. *)
Lemma stripKeys_dict_branch (l : Heap.loc) (skeys : list string)
    (h : gmap Heap.loc pydict) (d : pydict) :
  h !! l = Some d →
  (Heap.stripKeys (Heap.ADoc l) (Some skeys) h).2 !! l
  = Some (stripKeys_doc d (Some skeys)).
Proof.
  intros Hd. unfold Heap.stripKeys, Heap.obj_truthy, stripKeys_doc.
  rewrite Hd. destruct (dict_truthy d); simpl; [|done].
  by rewrite strip_dict_lookup_eq, Hd.
Qed.

(** ** More on the validator *)

Lemma dget_NoDup_elem d k v : NoDup (dkeys d) → (k, v) ∈ d → dget d k = Some v.
Proof.
  unfold dkeys. induction d as [|[k' v'] d IH]; simpl.
  - intros _ H. by apply elem_of_nil in H.
  - intros Hnd H. apply NoDup_cons in Hnd as [Hk' Hnd].
    apply elem_of_cons in H as [H|H].
    + inversion H; subst. by rewrite String.eqb_refl.
    + destruct (String.eqb k k') eqn:E; [|by apply IH].
      apply String.eqb_eq in E. subst k'. destruct Hk'.
      apply list_elem_of_fmap. by exists (k, v).
Qed.

Lemma dget_elem d k v : dget d k = Some v → (k, v) ∈ d.
Proof.
  induction d as [|[k' v'] d IH]; simpl; [done|].
  destruct (String.eqb k k') eqn:E.
  - apply String.eqb_eq in E. intros [= ->]. subst. left.
  - intros H. right. by apply IH.
Qed.

Lemma dget_keyset d k : k ∈ keyset d → ∃ v, dget d k = Some v.
Proof.
  intros H. apply elem_of_keyset in H.
  destruct (dget d k) as [v|] eqn:E; [by exists v|].
  by apply dget_None_keys in E.
Qed.

Section ValidatorRules.
Import MSPileupObj Rules.
Variable dataset : string → bool.

Ltac split_keys H :=
  repeat (apply elem_of_cons in H as [->|H]); [..|by apply elem_of_nil in H].

(** The equality test at the head of [validateRSEs] never changes its
    answer: the list of valid sites is itself made of valid sites. *)
Lemma validateRSEs_members valid l :
  validateRSEs valid l = true ↔ sites_ok valid l.
Proof.
  rewrite validateRSEs_spec. unfold sites_ok. split; [|by left].
  intros [H| ->]; [done|].
  intros x Hx. apply list_elem_of_fmap in Hx as (s & -> & Hs). by exists s.
Qed.

Lemma check_item_int valid key v :
  key ∈ ["insertTime"; "lastUpdateTime"; "fullReplicas"; "activatedOn";
         "deactivatedOn"; "pileupSize"] →
  check_item dataset valid key v = None ↔ is_int v.
Proof.
  intros Hk. unfold is_int. split_keys Hk;
    (destruct v; unfold check_item; simpl;
     (split;
      [try done; intros _; by eauto
      |intros [[? H]|[? H]]; by inversion H])).
Qed.

Lemma check_item_list valid key v :
  key ∈ ["campaigns"; "ruleList"] →
  check_item dataset valid key v = None ↔ is_list v.
Proof.
  intros Hk. unfold is_list. split_keys Hk;
    (destruct v; unfold check_item; simpl;
     (split;
      [try done; intros _; by eauto | intros [? H]; by inversion H])).
Qed.

Lemma check_item_sites valid key v :
  key ∈ ["expectedRSEs"; "currentRSEs"] →
  check_item dataset valid key v = None ↔ ∃ l, v = VList l ∧ sites_ok valid l.
Proof.
  intros Hk. destruct v as [| | | | |l|];
    try (split; [split_keys Hk; by unfold check_item
                |intros (? & H & _); by inversion H]).
  rewrite check_item_rses by done.
  destruct (validateRSEs valid l) eqn:E; split; try done.
  - intros _. exists l. split; [done|]. by apply validateRSEs_members.
  - intros (l' & [= <-] & Hl). apply validateRSEs_members in Hl. congruence.
Qed.

Lemma check_item_name valid v :
  check_item dataset valid "pileupName" v = None ↔
  ∃ s, v = VStr s ∧ dataset s = true.
Proof.
  destruct v as [| | | |s| |]; unfold check_item; simpl;
    try (split; [done | intros (? & H & _); by inversion H]).
  destruct (dataset s) eqn:E; simpl; split; try done.
  - intros _. by exists s.
  - intros (s' & [= <-] & H). congruence.
Qed.

Lemma in_strs_two v a b :
  in_strs v [a; b] = true ↔ v = VStr a ∨ v = VStr b.
Proof.
  rewrite in_strs_spec. split.
  - intros (s & -> & Hs). apply elem_of_cons in Hs as [->|Hs]; [by left|].
    apply list_elem_of_singleton in Hs as ->. by right.
  - intros [-> | ->]; eexists; (split; [done|]); [left | right; left].
Qed.

Lemma check_item_pileupType valid v :
  check_item dataset valid "pileupType" v = None ↔
  v = VStr "classic" ∨ v = VStr "premix".
Proof.
  rewrite <- in_strs_two.
  destruct v as [| | | |s| |]; unfold check_item; simpl; try done.
  by destruct (bool_decide _).
Qed.

Lemma check_item_grouping valid v :
  check_item dataset valid "replicationGrouping" v = None ↔
  v = VStr "DATASET" ∨ v = VStr "ALL".
Proof.
  rewrite <- in_strs_two.
  destruct v as [| | | |s| |]; unfold check_item; simpl; try done.
  by destruct (bool_decide _).
Qed.

Lemma check_item_fraction_ok valid v :
  check_item dataset valid "containerFraction" v = None ↔
  ∃ f, v = VFloat f ∧ SFltb SF_one f = false ∧ SFltb f SF_zero = false.
Proof.
  destruct v as [| | |f| | |];
    try (split; [by unfold check_item | intros (? & H & _); by inversion H]).
  rewrite check_item_fraction. unfold gt_one, lt_zero.
  destruct (SFltb SF_one f) eqn:E1, (SFltb f SF_zero) eqn:E2; simpl;
    split; try done; try (intros (f' & [= <-] & ? & ?); congruence).
  intros _. by exists f.
Qed.

Lemma check_item_active valid v :
  check_item dataset valid "active" v = None ↔ ∃ b, v = VBool b.
Proof.
  destruct v; unfold check_item; simpl; split; try done;
    try (intros [? H]; by inversion H).
  intros _. by eauto.
Qed.

Lemma validate_items_pass valid d k v :
  (validate_items dataset valid d).1 = true → (k, v) ∈ d →
  check_item dataset valid k v = None.
Proof.
  intros Hok Hin. destruct (check_item dataset valid k v) eqn:E; [|done].
  rewrite (validate_items_fail dataset valid d k v) in Hok; [done | done |].
  by rewrite E.
Qed.

(** The message is empty exactly when the answer is [True]. *)
Lemma validate_items_message valid d :
  (validate_items dataset valid d).1 = true ↔
  (validate_items dataset valid d).2 = MsgEmpty.
Proof.
  induction d as [|[k v] d IH]; simpl; [done|].
  destruct (check_item dataset valid k v) as [msg|] eqn:E; [|done].
  simpl. split; [done|]. intros ->. revert E. unfold check_item.
  destruct (schema_get schema k) as [[? stype]|]; [|done].
  repeat match goal with
         | |- context [if ?c then _ else _] => destruct c; [done|]
         end.
  done.
Qed.

End ValidatorRules.

Section ValidatorCharacterised.
Import MSPileupObj Rules.
Variable dataset : string → bool.

Ltac schema_key := apply (bool_decide_unpack _); by vm_compute.

Lemma valid_field self d k :
  d ≠ [] → (validate dataset self (Some d)).1 = true → k ∈ schema_keys →
  ∃ v, dget d k = Some v ∧ check_item dataset (validRSEs self) k v = None.
Proof.
  intros Hd Hok Hk. rewrite validate_given in Hok by done.
  case_bool_decide as Hks; [done|].
  assert (keyset d = list_to_set schema_keys) as Heq
    by (destruct (decide (keyset d = list_to_set schema_keys)); tauto).
  destruct (dget_keyset d k) as [v Hv].
  { rewrite Heq. by apply elem_of_list_to_set. }
  exists v. split; [done|].
  eapply validate_items_pass; [exact Hok | by apply dget_elem].
Qed.

Lemma validate_valid_document_iff (self : MSPileupObj.t) (d : pydict) :
  d ≠ [] → NoDup (dkeys d) →
  (validate dataset self (Some d) = (true, MsgEmpty)
   ↔ valid_document dataset (validRSEs self) d)
  ∧ ((validate dataset self (Some d)).1 = true
     ↔ (validate dataset self (Some d)).2 = MsgEmpty).
Proof.
  intros Hd Hnd. split; [split|].
  - intros Hv.
    assert ((validate dataset self (Some d)).1 = true) as Hok by by rewrite Hv.
    pose proof (valid_field self d) as F.
    assert (keyset d = list_to_set schema_keys) as Hks.
    { rewrite validate_given in Hok by done. case_bool_decide as Hks; [done|].
      destruct (decide (keyset d = list_to_set schema_keys)); tauto. }
    constructor; [exact Hks|..].
    + destruct (F "pileupName" Hd Hok ltac:(schema_key)) as (v & Hg & Hc).
      apply check_item_name in Hc as (s & -> & Hs). by exists s.
    + destruct (F "pileupType" Hd Hok ltac:(schema_key)) as (v & Hg & Hc).
      apply check_item_pileupType in Hc as [-> | ->]; [by left | by right].
    + destruct (F "insertTime" Hd Hok ltac:(schema_key)) as (v & Hg & Hc).
      exists v. split; [done|]. eapply check_item_int; [|exact Hc]. schema_key.
    + destruct (F "lastUpdateTime" Hd Hok ltac:(schema_key)) as (v & Hg & Hc).
      exists v. split; [done|]. eapply check_item_int; [|exact Hc]. schema_key.
    + destruct (F "expectedRSEs" Hd Hok ltac:(schema_key)) as (v & Hg & Hc).
      eapply check_item_sites in Hc as (l & -> & Hl); [by exists l|schema_key].
    + destruct (F "currentRSEs" Hd Hok ltac:(schema_key)) as (v & Hg & Hc).
      eapply check_item_sites in Hc as (l & -> & Hl); [by exists l|schema_key].
    + destruct (F "fullReplicas" Hd Hok ltac:(schema_key)) as (v & Hg & Hc).
      exists v. split; [done|]. eapply check_item_int; [|exact Hc]. schema_key.
    + destruct (F "campaigns" Hd Hok ltac:(schema_key)) as (v & Hg & Hc).
      exists v. split; [done|]. eapply check_item_list; [|exact Hc]. schema_key.
    + destruct (F "containerFraction" Hd Hok ltac:(schema_key))
        as (v & Hg & Hc).
      apply check_item_fraction_ok in Hc as (f & -> & H1 & H0). by exists f.
    + destruct (F "replicationGrouping" Hd Hok ltac:(schema_key))
        as (v & Hg & Hc).
      apply check_item_grouping in Hc as [-> | ->]; [by left | by right].
    + destruct (F "activatedOn" Hd Hok ltac:(schema_key)) as (v & Hg & Hc).
      exists v. split; [done|]. eapply check_item_int; [|exact Hc]. schema_key.
    + destruct (F "deactivatedOn" Hd Hok ltac:(schema_key)) as (v & Hg & Hc).
      exists v. split; [done|]. eapply check_item_int; [|exact Hc]. schema_key.
    + destruct (F "active" Hd Hok ltac:(schema_key)) as (v & Hg & Hc).
      apply check_item_active in Hc as [b ->]. by exists b.
    + destruct (F "pileupSize" Hd Hok ltac:(schema_key)) as (v & Hg & Hc).
      exists v. split; [done|]. eapply check_item_int; [|exact Hc]. schema_key.
    + destruct (F "ruleList" Hd Hok ltac:(schema_key)) as (v & Hg & Hc).
      exists v. split; [done|]. eapply check_item_list; [|exact Hc]. schema_key.
  - intros [Hks Hname Htype Hins Hlast Hexp Hcur Hfull Hcamp Hfrac Hgrp
              Hact Hdeact Hactive Hsize Hrule].
    apply validate_all_ok; [done | done |].
    intros k v Hin.
    assert (k ∈ schema_keys) as Hk.
    { apply (proj1 (elem_of_list_to_set (C:=gset string) k schema_keys)).
      rewrite <- Hks. apply elem_of_keyset. apply list_elem_of_fmap.
      by exists (k, v). }
    pose proof (dget_NoDup_elem d k v Hnd Hin) as Hg.
    unfold schema_keys, schema in Hk. simpl in Hk.
    repeat (apply elem_of_cons in Hk as [->|Hk]); [..|by apply elem_of_nil in Hk].
    + apply check_item_name. destruct Hname as (s & Hs & ?).
      exists s. split; [congruence | done].
    + apply check_item_pileupType. destruct Htype as [H|H]; [left|right]; congruence.
    + apply check_item_int; [schema_key|].
      destruct Hins as (v' & ? & ?). congruence.
    + apply check_item_int; [schema_key|].
      destruct Hlast as (v' & ? & ?). congruence.
    + apply check_item_sites; [schema_key|].
      destruct Hexp as (l & ? & ?). exists l. split; [congruence | done].
    + apply check_item_sites; [schema_key|].
      destruct Hcur as (l & ? & ?). exists l. split; [congruence | done].
    + apply check_item_int; [schema_key|].
      destruct Hfull as (v' & ? & ?). congruence.
    + apply check_item_list; [schema_key|].
      destruct Hcamp as (v' & ? & ?). congruence.
    + apply check_item_fraction_ok. destruct Hfrac as (f & ? & ? & ?).
      exists f. split; [congruence | done].
    + apply check_item_grouping. destruct Hgrp as [H|H]; [left|right]; congruence.
    + apply check_item_int; [schema_key|].
      destruct Hact as (v' & ? & ?). congruence.
    + apply check_item_int; [schema_key|].
      destruct Hdeact as (v' & ? & ?). congruence.
    + apply check_item_active. destruct Hactive as (b & ?).
      exists b. congruence.
    + apply check_item_int; [schema_key|].
      destruct Hsize as (v' & ? & ?). congruence.
    + apply check_item_list; [schema_key|].
      destruct Hrule as (v' & ? & ?). congruence.
  - rewrite validate_given by done. case_bool_decide; [done|].
    apply validate_items_message.
Qed.

(** [validate] answers [True] for a given dictionary exactly when the
    dictionary has the keys of the schema and every field keeps the rule of
    its key; the message is then empty, and it is not empty when the answer
    is [False]. *)
Theorem validate_accepts_exactly_valid_documents (self : MSPileupObj.t)
    (d : pydict) :
  d ≠ [] → NoDup (dkeys d) →
  (validate dataset self (Some d) = (true, MsgEmpty)
   ↔ valid_document dataset (validRSEs self) d)
  ∧ ((validate dataset self (Some d)).1 = true
     ↔ (validate dataset self (Some d)).2 = MsgEmpty).
Proof.
  intros Hd Hnd.
  destruct (validate_valid_document_iff self d Hd Hnd) as [Hdoc Hmsg].
  split; [exact Hdoc | exact Hmsg].
Qed.

End ValidatorCharacterised.

Section ValidatorExamples.
Import MSPileupObj Rules Samples.

Lemma validate_accepts_exactly_valid_documents_witness :
  valid_document dataset_ok sites doc0.
Proof.
  refine (proj1 (proj1
    (validate_accepts_exactly_valid_documents dataset_ok obj0 doc0 _ _)) _).
  - discriminate.
  - apply (bool_decide_unpack _). by vm_compute.
  - reflexivity.
Defined.

End ValidatorExamples.

Section ConstructorInvariant.
Import MSPileupObj Rules.
Variable dataset : string → bool.

Lemma init_data_NoDup pdict t1 t2 t3 t4 :
  NoDup (dkeys (init_data pdict t1 t2 t3 t4)).
Proof.
  change (dkeys (init_data pdict t1 t2 t3 t4)) with schema_keys.
  apply (bool_decide_unpack _). by vm_compute.
Qed.

Lemma validate_own_data self :
  validate dataset self None = validate dataset self (Some (data self))
  ∧ validate dataset self (Some []) = validate dataset self (Some (data self)).
Proof.
  unfold validate. cbn [dict_truthy].
  by destruct (data self) as [|kv rest].
Qed.

Lemma init_outcomes (pdict : pydict) (valid : list string)
    (t1 t2 t3 t4 : Z) :
  (∀ obj, init dataset pdict valid t1 t2 t3 t4 = inl obj →
     validate dataset obj None = (true, MsgEmpty)
     ∧ validate dataset obj (Some []) = (true, MsgEmpty)
     ∧ valid_document dataset valid (getPileupData obj)
     ∧ dkeys (getPileupData obj) = schema_keys
     ∧ validRSEs obj = valid)
  ∧ (∀ msg, init dataset pdict valid t1 t2 t3 t4 = inr msg → msg ≠ MsgEmpty).
Proof.
  set (d := init_data pdict t1 t2 t3 t4).
  assert (d ≠ []) as Hd by done.
  pose proof (init_data_NoDup pdict t1 t2 t3 t4) as Hnd. fold d in Hnd.
  destruct (validate_valid_document_iff dataset (mk d valid) d Hd Hnd)
    as [Hiff Hmsg].
  rewrite init_spec. fold d.
  destruct (validate dataset (mk d valid) (Some d)) as [ok msg] eqn:E.
  cbn [fst snd] in *. destruct ok; split.
  - intros obj [= <-].
    assert (msg = MsgEmpty) as -> by (apply Hmsg; reflexivity).
    destruct (validate_own_data (mk d valid)) as [-> ->].
    unfold getPileupData. cbn [data validRSEs].
    split; [exact E|]. split; [exact E|].
    split; [apply Hiff; reflexivity|]. split; reflexivity.
  - intros msg' Habs. discriminate Habs.
  - intros obj Habs. discriminate Habs.
  - intros msg' [= <-] Hmsg'. apply Hmsg in Hmsg'. discriminate Hmsg'.
Qed.

(** A constructed object holds a valid document: [validate()] without
    argument, and with the empty mapping, answers [True] on it; when the
    constructor raises instead, the message of the exception is not empty. *)
Theorem init_establishes_validity (pdict : pydict) (valid : list string)
    (t1 t2 t3 t4 : Z) :
  (∀ obj, init dataset pdict valid t1 t2 t3 t4 = inl obj →
     validate dataset obj None = (true, MsgEmpty)
     ∧ validate dataset obj (Some []) = (true, MsgEmpty)
     ∧ valid_document dataset valid (getPileupData obj)
     ∧ dkeys (getPileupData obj) = schema_keys
     ∧ validRSEs obj = valid)
  ∧ (∀ msg, init dataset pdict valid t1 t2 t3 t4 = inr msg → msg ≠ MsgEmpty).
Proof.
  destruct (init_outcomes pdict valid t1 t2 t3 t4) as [Hobj Hmsg].
  split; [exact Hobj | exact Hmsg].
Qed.

End ConstructorInvariant.

Lemma init_establishes_validity_witness :
  MSPileupObj.validate Samples.dataset_ok
    (MSPileupObj.mk (MSPileupObj.init_data Samples.pdict0 1 2 3 4)
       Samples.sites) None
  = (true, MSPileupObj.MsgEmpty).
Proof.
  refine (proj1 (proj1
    (init_establishes_validity Samples.dataset_ok Samples.pdict0
       Samples.sites 1 2 3 4) _ _)).
  by vm_compute.
Defined.

Section SiteListFacts.
Import MSPileupObj Rules.

(** [validateRSEs] looks at membership only: it answers [True] exactly when
    every element is a valid site, so the empty list always passes, nothing
    but the empty list passes when no site is configured, and a list drawn
    from a list that passes (reordered, repeated, shortened) passes. *)
Theorem validateRSEs_membership_only (valid : list string) (l : list pyval) :
  (validateRSEs valid l = true ↔ ∀ x, x ∈ l → ∃ s, x = VStr s ∧ s ∈ valid)
  ∧ validateRSEs valid [] = true
  ∧ (validateRSEs [] l = true ↔ l = [])
  ∧ (∀ l', l' ⊆ l → validateRSEs valid l = true →
           validateRSEs valid l' = true).
Proof.
  split; [apply validateRSEs_members|]. split; [by destruct valid|]. split.
  - rewrite validateRSEs_members. unfold sites_ok. split.
    + intros H. destruct l as [|x l]; [done|].
      destruct (H x) as (s & _ & Hs); [left|]. by apply elem_of_nil in Hs.
    + intros -> x Hx. by apply elem_of_nil in Hx.
  - intros l' Hsub. rewrite !validateRSEs_members. unfold sites_ok.
    intros H x Hx. apply H. by apply Hsub.
Qed.

End SiteListFacts.

Lemma validateRSEs_membership_only_witness :
  MSPileupObj.validateRSEs Samples.sites [VStr "Disk2"; VStr "Disk2"] = true.
Proof.
  refine (proj2 (proj2 (proj2
    (validateRSEs_membership_only Samples.sites
       [VStr "Disk1"; VStr "Disk2"]))) [VStr "Disk2"; VStr "Disk2"] _ _).
  - intros x Hx. apply elem_of_cons in Hx as [->|Hx]; [right; left|].
    apply list_elem_of_singleton in Hx as ->. right; left.
  - reflexivity.
Defined.

(** ** More on the store *)

Lemma pyval_eqb_eq : ∀ a b, pyval_eqb a b = true → a = b.
Proof.
  fix IH 1. intros [| x | x | x | x | xs | x] [| y | y | y | y | ys | y];
    simpl; try done.
  - intros H. f_equal. by apply Bool.eqb_prop.
  - intros H. f_equal. by apply Z.eqb_eq.
  - intros H. f_equal. by apply bool_decide_eq_true in H.
  - intros H. f_equal. by apply String.eqb_eq.
  - intros H. f_equal. revert ys H.
    induction xs as [|x xs IHxs]; intros [|y ys]; try done.
    intros H. apply andb_true_iff in H as [Hx Hxs].
    f_equal; [by apply IH | by apply IHxs].
  - intros H. f_equal. by apply N.eqb_eq.
Qed.

Lemma same_key_eq a b : Store.same_key a b = true ↔ a = b.
Proof.
  destruct a as [x|], b as [y|]; simpl; try done.
  split.
  - intros H. f_equal. by apply pyval_eqb_eq.
  - intros [= ->]. apply pyval_eqb_refl.
Qed.

Lemma matches_name_iff d pname :
  Store.matches [("pileupName", pname)] d = true ↔
  dget d "pileupName" = Some pname.
Proof. rewrite matches_name. apply same_key_eq. Qed.


Lemma dget_dpop_ne d k k' : k ≠ k' → dget (dpop d k') k = dget d k.
Proof.
  intros Hne. unfold dpop. induction d as [|[k0 v0] d IH]; [done|].
  destruct (decide (k0 = k')) as [->|Hk0].
  - rewrite filter_cons_False by (simpl; tauto). rewrite IH. simpl.
    destruct (String.eqb k k') eqn:E; [|done].
    apply String.eqb_eq in E. done.
  - rewrite filter_cons_True by done. simpl. by rewrite IH.
Qed.

Lemma dget_strip_id_ne doc k : k ≠ "_id" → dget (strip_id doc) k = dget doc k.
Proof.
  intros Hne. unfold strip_id, stripKeys_doc.
  destruct (dict_truthy doc); [|done]. simpl. by apply dget_dpop_ne.
Qed.

Lemma delete_first_nomatch spec c :
  filter (λ x, Store.matches spec x) c = [] → Store.delete_first spec c = c.
Proof.
  induction c as [|x c IH]; [done|]. simpl.
  destruct (Store.matches spec x) eqn:E.
  - rewrite filter_cons_True by (by apply Is_true_true). done.
  - rewrite filter_cons_False by (by apply Is_true_false).
    intros H. by rewrite IH.
Qed.

Lemma delete_first_snoc spec c x :
  filter (λ y, Store.matches spec y) c = [] → Store.matches spec x = true →
  Store.delete_first spec (c ++ [x]) = c.
Proof.
  intros Hc Hx. induction c as [|y c IH]; simpl.
  - by rewrite Hx.
  - destruct (Store.matches spec y) eqn:E.
    + rewrite filter_cons_True in Hc by (by apply Is_true_true). done.
    + rewrite filter_cons_False in Hc by (by apply Is_true_false).
      by rewrite IH.
Qed.

Lemma delete_first_match spec c d rest :
  filter (λ x, Store.matches spec x) c = d :: rest →
  filter (λ x, Store.matches spec x) (Store.delete_first spec c) = rest
  ∧ S (length (Store.delete_first spec c)) = length c.
Proof.
  induction c as [|x c IH]; [done|]. simpl.
  destruct (Store.matches spec x) eqn:E.
  - rewrite filter_cons_True by (by apply Is_true_true).
    intros [= -> ->]. done.
  - rewrite !filter_cons_False by (by apply Is_true_false).
    intros H. destruct (IH H) as [H1 H2]. simpl. by rewrite H2.
Qed.

Lemma delete_first_sublist spec c : sublist (Store.delete_first spec c) c.
Proof.
  induction c as [|x c IH]; simpl; [constructor|].
  destruct (Store.matches spec x).
  - by apply sublist_cons.
  - by apply sublist_skip.
Qed.

Lemma stored_names_update_first pname setdoc c :
  NoDup (dkeys setdoc) → dget setdoc "pileupName" = Some pname →
  stored_names (Store.update_first [("pileupName", pname)] setdoc c)
  = stored_names c.
Proof.
  intros Hnd Hset. unfold stored_names.
  induction c as [|x c IH]; [done|]. cbn [Store.update_first].
  destruct (Store.matches [("pileupName", pname)] x) eqn:E.
  - rewrite !fmap_cons. f_equal.
    apply matches_name_iff in E. rewrite E.
    rewrite dget_apply_set by done. by rewrite Hset.
  - rewrite !fmap_cons. by f_equal.
Qed.

(** ** More on the registry *)

Section RegistryMore.
Import MSPileupError MSPileupData Rules.
Variable dataset : string → bool.
Variable validRSEs : list string.

(** What a [createPileup] that returned the empty list has done. *)
Lemma createPileup_ok pdict w :
  let t n := gmtime w (n + ticks w) in
  let d := MSPileupObj.init_data pdict (t 0) (t 1) (t 2) (t 3) in
  (createPileup dataset validRSEs pdict w).1 = Ret [] →
  fault w (calls w) = None
  ∧ Store.index_violated d (coll w) = false
  ∧ MSPileupObj.init dataset pdict validRSEs (t 0) (t 1) (t 2) (t 3)
    = inl (MSPileupObj.mk d validRSEs)
  ∧ (createPileup dataset validRSEs pdict w).2
    = mkWorld (coll w ++ [("_id", VOid (next_oid w)) :: d])
        (N.succ (next_oid w)) (gmtime w) (4 + ticks w) (fault w)
        (S (calls w)).
Proof.
  intros t d. rewrite createPileup_eq, !init_spec.
  change (MSPileupObj.init_data pdict _ _ _ _) with d.
  destruct (MSPileupObj.validate dataset _ _).1;
    [|cbn [fst]; discriminate].
  destruct (fault w (calls w)) as [[]|]; try (cbn [fst]; discriminate).
  destruct (Store.index_violated d (coll w)); [cbn [fst]; discriminate|].
  cbn [fst snd]. intros _. repeat split; reflexivity.
Qed.



(** After a [createPileup] that returned the empty list, [deletePileup] by
    the [pileupName] of the created document (the store answering) returns
    the empty list and gives back the collection as it was before the
    creation; a read by that name then finds nothing. *)
Theorem create_then_delete_restores (pdict : pydict) (w : World) :
  let name := dget_default pdict "pileupName" (VStr "") in
  let w1 := (createPileup dataset validRSEs pdict w).2 in
  let w2 := (deletePileup [("pileupName", name)] w1).2 in
  (createPileup dataset validRSEs pdict w).1 = Ret [] →
  fault w1 (calls w1) = None →
  (deletePileup [("pileupName", name)] w1).1 = Ret []
  ∧ coll w2 = coll w
  ∧ (fault w2 (calls w2) = None →
     (getPileup [("pileupName", name)] None w2).1 = Ret []).
Proof.
  intros name w1 w2 Hok Hf.
  destruct (createPileup_ok pdict w Hok) as (_ & Hidx & _ & Hw1).
  fold w1 in Hw1.
  assert (filter (λ x, Store.matches [("pileupName", name)] x) (coll w) = [])
    as Hnone.
  { eapply index_free_filter; [|exact Hidx]. reflexivity. }
  clearbody w1.
  assert (deletePileup [("pileupName", name)] w1
          = (Ret [], set_coll (coll w) (after_call w1))) as Hdel.
  { rewrite deletePileup_eq, Hf. f_equal. f_equal.
    rewrite Hw1. cbn [coll].
    apply delete_first_snoc; [exact Hnone|].
    apply matches_name_Some. reflexivity. }
  subst w2. rewrite Hdel. cbn [fst snd]. unfold set_coll. cbn [coll].
  split; [reflexivity|]. split; [reflexivity|].
  cbn [fault calls]. intros Hf2.
  rewrite getPileup_eq. cbn [fault calls coll]. rewrite Hf2. cbn [fst].
  rewrite Hnone. reflexivity.
Qed.

End RegistryMore.

Section RegistryMoreExamples.
Import MSPileupError MSPileupData Rules Samples.



Lemma create_then_delete_restores_witness :
  (deletePileup name0 (createPileup dataset_ok sites pdict0 world0).2).1
  = Ret []
  ∧ coll (deletePileup name0
            (createPileup dataset_ok sites pdict0 world0).2).2
    = coll world0.
Proof.
  pose proof (create_then_delete_restores dataset_ok sites pdict0 world0
                eq_refl eq_refl) as (Hdel & Hcoll & _).
  split; [exact Hdel | exact Hcoll].
Defined.

End RegistryMoreExamples.
